(** * ScandEval: model/tokenizer alignment, token-type expansion and the
      AngryTweets metric and report functions

    Shallow embedding of
    - [src/scandeval/model_setups/utils.py]: [get_children_of_module],
      [setup_model_for_question_answering], [align_model_and_tokenizer];
    - [scandeval/angry_tweets.py]: [_compute_metrics], [_log_metrics].

    Python objects are mutated in place, and an exception leaves every
    earlier mutation visible to the caller.  Functions that mutate their
    arguments are therefore written in a state-and-exception monad whose
    state holds the objects the function was given. *)

From Stdlib Require Import ZArith Floats.
From stdpp Require Import gmap strings list pretty.

Open Scope Z_scope.

(** ** Exceptions and outcomes *)

Inductive exn : Type :=
  | InvalidBenchmark (msg : string)
  | AttributeError (attribute : string)
  | KeyError (key : string)
  | ValueError (msg : string).

(** What a call does: it returns a value, raises, or (a [while] loop that
    makes no progress) never comes back. *)
Inductive outcome (A : Type) : Type :=
  | Returned (a : A)
  | Raised (e : exn)
  | Diverged.
Arguments Returned {A} a.
Arguments Raised {A} e.
Arguments Diverged {A}.

Definition is_invalid_benchmark {A} (o : outcome A) : bool :=
  match o with
  | Raised (InvalidBenchmark _) => true
  | _ => false
  end.

(** ** The state-and-exception monad *)

Definition Py (S A : Type) : Type := S -> S * outcome A.

Definition py_ret {S A} (a : A) : Py S A := fun s => (s, Returned a).

Definition py_bind {S A B} (m : Py S A) (k : A -> Py S B) : Py S B :=
  fun s =>
    match m s with
    | (s', Returned a) => k a s'
    | (s', Raised e) => (s', Raised e)
    | (s', Diverged) => (s', Diverged)
    end.

Definition py_get {S} : Py S S := fun s => (s, Returned s).
Definition py_modify {S} (f : S -> S) : Py S unit := fun s => (f s, Returned tt).
Definition py_raise {S A} (e : exn) : Py S A := fun s => (s, Raised e).
Definition py_when {S} (b : bool) (m : Py S unit) : Py S unit :=
  if b then m else py_ret tt.

Notation "x <- m ;; k" := (py_bind m (fun x => k))
  (at level 100, m at next level, right associativity).
Notation "m ;;; k" := (py_bind m (fun _ => k))
  (at level 100, right associativity).

(** ** Tensors

    A weight matrix is the list of its rows; [shape[0]] is the number of
    rows.  The code never looks at an entry. *)

Abbreviation Tensor := (list (list float)).

Definition shape0 (w : Tensor) : Z := Z.of_nat (length w).

(** [torch.rand_like w]: a tensor of the shape of [w] whose entries come
    from the random generator, here the function [rand] from positions to
    samples. *)
Definition rand_like (rand : nat -> nat -> float) (w : Tensor) : Tensor :=
  imap (fun i row => imap (fun j _ => rand i j) row) w.

(** [torch.cat((a, b), dim=0)] *)
Definition cat0 (a b : Tensor) : Tensor := a ++ b.

(** ** Model configuration

    An attribute the code guards with [hasattr] is an [option]: [None]
    means that the object has no such attribute. *)

Module Config.
Record t : Type := mk {
  max_position_embeddings : option Z;
  vocab_size : option Z;
  (* always present; holds Python's None or an int *)
  pad_token_id : option Z;
  type_vocab_size : option Z
}.

Definition set_vocab_size (v : Z) (c : t) : t :=
  mk (max_position_embeddings c) (Some v) (pad_token_id c) (type_vocab_size c).
Definition set_pad_token_id (v : option Z) (c : t) : t :=
  mk (max_position_embeddings c) (vocab_size c) v (type_vocab_size c).
Definition set_type_vocab_size (v : Z) (c : t) : t :=
  mk (max_position_embeddings c) (vocab_size c) (pad_token_id c) (Some v).
End Config.

(** ** Tokenizers *)

Module Tokenizer.
Record t : Type := mk {
  model_max_length : option Z;
  (* a dict from architecture name to a size or None *)
  max_model_input_sizes : option (gmap string (option Z));
  (* the number of entries of the vocabulary *)
  vocab_size : option N;
  (* the special tokens; None is Python's None *)
  pad_token : option string;
  eos_token : option string;
  sep_token : option string;
  padding_side : string;
  convert_tokens_to_ids : string -> Z
}.

(** [pad_token_id] is a property of the tokenizer class, computed from
    [pad_token]: None when there is no pad token, its id otherwise.  So
    [hasattr(tokenizer, "pad_token_id")] holds of every tokenizer. *)
Definition pad_token_id (tk : t) : option Z :=
  match pad_token tk with
  | None => None
  | Some tok => Some (convert_tokens_to_ids tk tok)
  end.

Definition set_model_max_length (v : Z) (tk : t) : t :=
  mk (Some v) (max_model_input_sizes tk) (vocab_size tk) (pad_token tk)
     (eos_token tk) (sep_token tk) (padding_side tk) (convert_tokens_to_ids tk).
Definition set_pad_token (v : option string) (tk : t) : t :=
  mk (model_max_length tk) (max_model_input_sizes tk) (vocab_size tk) v
     (eos_token tk) (sep_token tk) (padding_side tk) (convert_tokens_to_ids tk).
Definition set_padding_side (v : string) (tk : t) : t :=
  mk (model_max_length tk) (max_model_input_sizes tk) (vocab_size tk)
     (pad_token tk) (eos_token tk) (sep_token tk) v (convert_tokens_to_ids tk).
End Tokenizer.

(** ** The module tree of a model

    An [nn.Module] has named children, in registration order; the names of
    the children of one module are distinct (they are the keys of its
    [_modules] dict).  A module may carry a [weight] (an embedding does)
    and a [num_embeddings] attribute. *)

#[warnings="-register-all"]
Inductive Module : Type :=
  MkModule (weight : option Tensor) (num_embeddings : option Z)
           (named_children : list (string * Module)).

Definition weight (m : Module) : option Tensor :=
  let 'MkModule w _ _ := m in w.
Definition num_embeddings (m : Module) : option Z :=
  let 'MkModule _ n _ := m in n.
Definition named_children (m : Module) : list (string * Module) :=
  let 'MkModule _ _ cs := m in cs.

(** ** Models

    A [PreTrainedModel] is itself the root of its module tree.
    [input_embeddings] is the table that [get_input_embeddings()] gives and
    that [resize_token_embeddings] replaces; the alignment touches nothing
    else of the model but its configuration. *)

Module Model.
Record t : Type := mk {
  config : Config.t;
  input_embeddings : Tensor;
  module : Module
}.

Definition set_config (c : Config.t) (m : t) : t :=
  mk c (input_embeddings m) (module m).
Definition set_module (r : Module) (m : t) : t :=
  mk (config m) (input_embeddings m) r.

(** The library's [resize_token_embeddings(new_num_tokens)]: the table
    gets [new_num_tokens] rows, the old rows kept as far as they fit and
    the new ones freshly initialised (by [init]); the configuration's
    [vocab_size] becomes the new number of rows. *)
Definition resize_token_embeddings (init : nat -> nat -> float)
    (new_num_tokens : N) (m : t) : t :=
  let old := input_embeddings m in
  let dim := length (default [] (head old)) in
  let n := N.to_nat new_num_tokens in
  let fresh :=
    (fun i => (fun j => init i j) <$> seq 0 dim) <$> seq (length old) (n - length old)%nat in
  mk (Config.set_vocab_size (Z.of_N new_num_tokens) (config m))
     (take n old ++ fresh) (module m).
End Model.

(** ** [align_model_and_tokenizer] *)

Definition AlignState : Type := Model.t * Tokenizer.t.

Definition get_model : Py AlignState Model.t := fun s => (s, Returned (fst s)).
Definition get_tokenizer : Py AlignState Tokenizer.t := fun s => (s, Returned (snd s)).
Definition modify_model (f : Model.t -> Model.t) : Py AlignState unit :=
  py_modify (fun s => (f (fst s), snd s)).
Definition modify_tokenizer (f : Tokenizer.t -> Tokenizer.t) : Py AlignState unit :=
  py_modify (fun s => (fst s, f (snd s))).

(** Python's [min] of a list that is not empty. *)
Definition py_min (x : Z) (xs : list Z) : Z := foldl Z.min x xs.

(** The sizes of [max_model_input_sizes.values()] that are not None. *)
Definition not_none_sizes (sizes : gmap string (option Z)) : list Z :=
  omap id (map_to_list sizes).*2.

(** Lines 110-135: the list [all_max_lengths]. *)
Definition all_max_lengths (model : Model.t) (tokenizer : Tokenizer.t) : list Z :=
  let all_max_lengths : list Z := [] in
  (* the registered max length of the tokenizer *)
  let all_max_lengths :=
    match Tokenizer.model_max_length tokenizer with
    | Some l => if l <? 100000 then all_max_lengths ++ [l] else all_max_lengths
    | None => all_max_lengths
    end in
  (* the max length derived from the position embeddings *)
  let all_max_lengths :=
    match Config.max_position_embeddings (Model.config model),
          Tokenizer.pad_token_id tokenizer with
    | Some max_position_embeddings, Some pad_token_id =>
        all_max_lengths ++ [max_position_embeddings - pad_token_id - 1]
    | _, _ => all_max_lengths
    end in
  (* the max lengths derived from the model's input sizes *)
  let all_max_lengths :=
    match Tokenizer.max_model_input_sizes tokenizer with
    | Some sizes => all_max_lengths ++ not_none_sizes sizes
    | None => all_max_lengths
    end in
  all_max_lengths.

Definition vocab_error : string :=
  "The vocab size of the tokenizer is larger than the vocab size of " +:+
  "the model. As the --raise-errors option was specified, the " +:+
  "embeddings of the model will not be automatically adjusted.".

Definition padding_error : string :=
  "The tokenizer does not have a padding token and does not have a " +:+
  "SEP token or EOS token to use as a padding token.".

(** The function mutates [model] and [tokenizer] and returns the pair of
    them: the objects it returns are those of the final state. *)
Definition align_model_and_tokenizer (init : nat -> nat -> float)
    (raise_errors : bool) : Py AlignState unit :=
  (* lines 110-144: if any maximal lengths were found then use the shortest
     one, otherwise the default maximal length *)
  model <- get_model ;;
  tokenizer <- get_tokenizer ;;
  match all_max_lengths model tokenizer with
  | x :: xs => modify_tokenizer (Tokenizer.set_model_max_length (py_min x xs))
  | [] => modify_tokenizer (Tokenizer.set_model_max_length 512)
  end ;;;
  (* lines 146-156: the vocab size according to the tokenizer and according
     to the model *)
  model <- get_model ;;
  tokenizer <- get_tokenizer ;;
  match Config.vocab_size (Model.config model), Tokenizer.vocab_size tokenizer with
  | Some model_vocab_size, Some tokenizer_vocab_size =>
      if model_vocab_size <? Z.of_N tokenizer_vocab_size then
        py_when raise_errors (py_raise (InvalidBenchmark vocab_error)) ;;;
        modify_model
          (Model.resize_token_embeddings init (tokenizer_vocab_size + 1)%N)
      else py_ret tt
  | _, _ => py_ret tt
  end ;;;
  (* lines 158-173: the padding token *)
  tokenizer <- get_tokenizer ;;
  match Tokenizer.pad_token tokenizer with
  | None =>
      match Tokenizer.eos_token tokenizer with
      | Some eos_token =>
          modify_tokenizer (Tokenizer.set_padding_side "left") ;;;
          modify_tokenizer (Tokenizer.set_pad_token (Some eos_token)) ;;;
          tokenizer <- get_tokenizer ;;
          modify_model (fun m =>
            Model.set_config
              (Config.set_pad_token_id (Tokenizer.pad_token_id tokenizer)
                 (Model.config m)) m)
      | None =>
          match Tokenizer.sep_token tokenizer with
          | Some sep_token =>
              modify_tokenizer (Tokenizer.set_padding_side "left") ;;;
              modify_tokenizer (Tokenizer.set_pad_token (Some sep_token)) ;;;
              tokenizer <- get_tokenizer ;;
              modify_model (fun m =>
                Model.set_config
                  (Config.set_pad_token_id (Tokenizer.pad_token_id tokenizer)
                     (Model.config m)) m)
          | None => py_raise (InvalidBenchmark padding_error)
          end
      end
  | Some _ => py_ret tt
  end.

(** Running the alignment on a pair. *)
Definition align (init : nat -> nat -> float) (model : Model.t)
    (tokenizer : Tokenizer.t) (raise_on_conflict : bool)
    : AlignState * outcome unit :=
  align_model_and_tokenizer init raise_on_conflict (model, tokenizer).

Definition aligned_model (r : AlignState * outcome unit) : Model.t := fst (fst r).
Definition aligned_tokenizer (r : AlignState * outcome unit) : Tokenizer.t := snd (fst r).

(** ** The signals for the maximum sequence length *)

Section Signals.
Variables (model : Model.t) (tokenizer : Tokenizer.t).

(** The three kinds of signal for the maximum sequence length. *)
Definition declared_signal (s : Z) : Prop :=
  Tokenizer.model_max_length tokenizer = Some s /\ s < 100000.

Definition positional_signal (s : Z) : Prop :=
  exists p i,
    Config.max_position_embeddings (Model.config model) = Some p /\
    Tokenizer.pad_token_id tokenizer = Some i /\
    s = p - i - 1.

Definition input_size_signal (s : Z) : Prop :=
  exists sizes arch,
    Tokenizer.max_model_input_sizes tokenizer = Some sizes /\
    sizes !! arch = Some (Some s).

Definition signal (s : Z) : Prop :=
  declared_signal s \/ positional_signal s \/ input_size_signal s.
End Signals.

(** [v] is the least of the values that satisfy [P], or [dflt] when none does. *)
Definition least_or_default (P : Z -> Prop) (dflt v : Z) : Prop :=
  (P v /\ forall s, P s -> v <= s) \/ ((forall s, ~ P s) /\ v = dflt).

(** The value that lines 137-144 store in [tokenizer.model_max_length]. *)
Definition effective_max_length (model : Model.t) (tokenizer : Tokenizer.t) : Z :=
  match all_max_lengths model tokenizer with
  | x :: xs => py_min x xs
  | [] => 512
  end.

(** The vocabulary of the model is smaller than that of the tokenizer
    (line 148-149). *)
Definition vocab_conflict (model : Model.t) (tokenizer : Tokenizer.t) : bool :=
  match Config.vocab_size (Model.config model), Tokenizer.vocab_size tokenizer with
  | Some model_vocab_size, Some tokenizer_vocab_size =>
      model_vocab_size <? Z.of_N tokenizer_vocab_size
  | _, _ => false
  end.

(** ** [get_children_of_module] *)

(** What [get_children_of_module] returns when it is not None: the module
    itself, or a dict from the names of children to what it returns for
    them.  A Python dict keeps its keys in insertion order. *)
#[warnings="-register-all"]
Inductive Children : Type :=
  | CModule (module : Module)
  | CDict (submodules : list (string * Children)).

(** [d[k] = v] on a dict kept as the list of its items. *)
Fixpoint dict_set {V} (k : string) (v : V) (d : list (string * V))
    : list (string * V) :=
  match d with
  | [] => [(k, v)]
  | (k', v') :: d' =>
      if String.eqb k k' then (k', v) :: d' else (k', v') :: dict_set k v d'
  end.

(** [if children:] a module object is true, a dict is true when it has an
    item, None is false. *)
Definition truthy (children : option Children) : bool :=
  match children with
  | None => false
  | Some (CModule _) => true
  | Some (CDict []) => false
  | Some (CDict (_ :: _)) => true
  end.

Definition token_type_embeddings_name : string := "token_type_embeddings".

Fixpoint get_children_of_module (name : string) (module : Module)
    : option Children :=
  match module with
  | MkModule _ _ cs =>
      match cs with
      | [] =>
          if String.eqb name token_type_embeddings_name
          then Some (CModule module)
          else None
      | _ :: _ =>
          Some (CDict
            ((fix loop (l : list (string * Module))
                  (submodules : list (string * Children)) :=
                match l with
                | [] => submodules
                | (subname, submodule) :: rest =>
                    let children := get_children_of_module subname submodule in
                    loop rest
                      (match children with
                       | Some c =>
                           if truthy children
                           then dict_set subname c submodules
                           else submodules
                       | None => submodules
                       end)
                end) cs []))
      end
  end.

(** The loop of lines 34-37, from the dict built so far. *)
Fixpoint collect_children (l : list (string * Module))
    (submodules : list (string * Children)) : list (string * Children) :=
  match l with
  | [] => submodules
  | (subname, submodule) :: rest =>
      let children := get_children_of_module subname submodule in
      collect_children rest
        (match children with
         | Some c =>
             if truthy children then dict_set subname c submodules
             else submodules
         | None => submodules
         end)
  end.

(** ** [setup_model_for_question_answering] *)

(** Lines 59-68, from the current value of [children]: each round of the
    [while] loop takes the first item of the dict, appends its key and goes
    on with its value when that is a dict.  On a dict with no item the
    [for] loop does nothing and the [while] loop never ends. *)
Fixpoint attribute_list_of (children : Children) : option (list string) :=
  match children with
  | CModule _ => Some []
  | CDict [] => None
  | CDict ((key, value) :: _) =>
      match attribute_list_of value with
      | Some attribute_list => Some (key :: attribute_list)
      | None => None
      end
  end.

(** [getattr(module, attribute)] for the name of a child. *)
Fixpoint lookup_child (attribute : string) (cs : list (string * Module))
    : option Module :=
  match cs with
  | [] => None
  | (n, c) :: rest => if String.eqb attribute n then Some c else lookup_child attribute rest
  end.

Definition getattr (module : Module) (attribute : string) : option Module :=
  lookup_child attribute (named_children module).

(** Lines 71-73: the chain of [getattr]; the name that is missing when the
    chain breaks. *)
Fixpoint getattr_chain (module : Module) (attribute_list : list string)
    : string + Module :=
  match attribute_list with
  | [] => inr module
  | attribute :: rest =>
      match getattr module attribute with
      | Some child => getattr_chain child rest
      | None => inl attribute
      end
  end.

(** The module reached by [attribute_list] is an object of the tree: a
    change made to it shows in the tree, at its place. *)
Fixpoint alter_child (attribute : string) (f : Module -> Module)
    (cs : list (string * Module)) : list (string * Module) :=
  match cs with
  | [] => []
  | (n, c) :: rest =>
      if String.eqb attribute n then (n, f c) :: rest
      else (n, c) :: alter_child attribute f rest
  end.

Fixpoint mutate_at (attribute_list : list string) (f : Module -> Module)
    (module : Module) : Module :=
  match attribute_list with
  | [] => f module
  | attribute :: rest =>
      MkModule (weight module) (num_embeddings module)
        (alter_child attribute (mutate_at rest f) (named_children module))
  end.

(** Lines 77-85 on the embedding module. *)
Definition expand_token_type_embeddings (rand : nat -> nat -> float)
    (w : Tensor) (token_type_embeddings : Module) : Module :=
  MkModule (Some (cat0 w (rand_like rand w))) (Some 2)
    (named_children token_type_embeddings).

Definition setup_model_for_question_answering (rand : nat -> nat -> float)
    : Py Model.t unit :=
  model <- py_get ;;
  (* Get the models' token type embedding children, if they exist *)
  let children := get_children_of_module "model" (Model.module model) in
  match children with
  | Some c =>
      if truthy children then
        match c with
        | CModule _ => py_raise (AttributeError "items")
        | CDict _ =>
            match attribute_list_of c with
            | None => fun s => (s, Diverged)
            | Some attribute_list =>
                match getattr_chain (Model.module model) attribute_list with
                | inl attribute => py_raise (AttributeError attribute)
                | inr token_type_embeddings =>
                    match weight token_type_embeddings with
                    | None => py_raise (AttributeError "weight")
                    | Some w =>
                        py_when (shape0 w =? 1)
                          (py_modify (fun m =>
                             Model.set_module
                               (mutate_at attribute_list
                                  (expand_token_type_embeddings rand w)
                                  (Model.module m)) m)) ;;;
                        (* Set the model config to use the new type vocab size *)
                        py_modify (fun m =>
                          Model.set_config
                            (Config.set_type_vocab_size 2 (Model.config m)) m)
                    end
                end
            end
        end
      else py_ret tt
  | None => py_ret tt
  end.

(** ** The token-type embeddings of a model

    The first module with no children that is registered under the name
    [token_type_embeddings], in a depth-first walk of the tree in
    registration order, with the names that lead to it. *)
Fixpoint find_token_type_embeddings (name : string) (module : Module)
    : option (list string * Module) :=
  match module with
  | MkModule _ _ cs =>
      match cs with
      | [] =>
          if String.eqb name token_type_embeddings_name
          then Some ([], module)
          else None
      | _ :: _ =>
          (fix first (l : list (string * Module)) :=
             match l with
             | [] => None
             | (subname, submodule) :: rest =>
                 match find_token_type_embeddings subname submodule with
                 | Some (path, found) => Some (subname :: path, found)
                 | None => first rest
                 end
             end) cs
      end
  end.

Fixpoint find_in_children (l : list (string * Module))
    : option (list string * Module) :=
  match l with
  | [] => None
  | (subname, submodule) :: rest =>
      match find_token_type_embeddings subname submodule with
      | Some (path, found) => Some (subname :: path, found)
      | None => find_in_children rest
      end
  end.

Definition token_type_embeddings (model : Model.t) : option Module :=
  snd <$> find_token_type_embeddings "model" (Model.module model).

(** The names of the children of every module of the tree are distinct. *)
Fixpoint unique_names (module : Module) : bool :=
  match module with
  | MkModule _ _ cs =>
      bool_decide (NoDup cs.*1) &&
      (fix all (l : list (string * Module)) :=
         match l with
         | [] => true
         | (_, submodule) :: rest => unique_names submodule && all rest
         end) cs
  end.

Fixpoint unique_names_children (l : list (string * Module)) : bool :=
  match l with
  | [] => true
  | (_, submodule) :: rest => unique_names submodule && unique_names_children rest
  end.

(** ** Induction on module trees *)

(** Induction on a module tree, with the hypothesis for every child. *)
Fixpoint Module_tree_ind (P : Module -> Prop)
    (step : forall w n cs, Forall (fun p => P p.2) cs -> P (MkModule w n cs))
    (module : Module) : P module :=
  match module with
  | MkModule w n cs =>
      step w n cs
        ((fix children (l : list (string * Module))
            : Forall (fun p => P p.2) l :=
            match l with
            | [] => List.Forall_nil _
            | p :: rest =>
                List.Forall_cons _ p rest (Module_tree_ind P step p.2) (children rest)
            end) cs)
  end.

(** ** The AngryTweets benchmark *)

(** [numpy]'s [argmax] of a row of floats: the index of the first entry
    that no other exceeds; a not-a-number entry counts as the greatest.
    This is the loop of the library: the maximum so far changes when the
    next entry is not below or equal to it, and the loop stops at a
    not-a-number. *)
Fixpoint argmax_loop (mp : float) (max_ind i : nat) (ip : list float) : nat :=
  match ip with
  | [] => max_ind
  | x :: rest =>
      if negb (x <=? mp)%float then
        if PrimFloat.is_nan x then i else argmax_loop x i (S i) rest
      else argmax_loop mp max_ind (S i) rest
  end.

(** None stands for the [ValueError] on an empty row. *)
Definition argmax (row : list float) : option nat :=
  match row with
  | [] => None
  | x :: rest => Some (if PrimFloat.is_nan x then 0%nat else argmax_loop x 0 1 rest)
  end.

(** [predictions.argmax(axis=-1)] on a two-dimensional array. *)
Definition argmax_last_axis (predictions : list (list float)) : option (list nat) :=
  mapM argmax predictions.

(** Python's format spec [.2f]: the decimal with two digits after the point
    that is nearest to the exact value of the float, ties to even. *)
Definition round_half_even (num den : Z) : Z :=
  let q := num / den in
  let r := num mod den in
  match 2 * r ?= den with
  | Lt => q
  | Gt => q + 1
  | Eq => if Z.even q then q else q + 1
  end.

Definition sign_string (s : bool) : string := if s then "-" else "".

Definition format_2f (x : float) : string :=
  match Prim2SF x with
  | S754_nan => "nan"
  | S754_infinity s => sign_string s +:+ "inf"
  | S754_zero s => sign_string s +:+ "0.00"
  | S754_finite s m e =>
      let hundredths :=
        match e with
        | Zneg p => round_half_even (Zpos m * 100) (2 ^ Zpos p)
        | _ => Zpos m * 100 * 2 ^ e
        end in
      sign_string s +:+ pretty (hundredths / 100) +:+ "." +:+
      pretty (hundredths mod 100 / 10) +:+ pretty (hundredths mod 10)
  end.

Definition newline : string := String (Ascii.ascii_of_nat 10) EmptyString.

Module AngryTweetsBenchmark.
Section Benchmark.
(** The metric object [self._metric] and the method [_get_stats] belong to
    the parent classes of the benchmark; they are taken as given.
    [_metric_compute predictions references average] is
    [self._metric.compute(...)], [_get_stats split metrics metric_name]
    gives the mean and the standard error of a metric on a split. *)
Variable _metric_compute : list nat -> list nat -> string -> gmap string float.
Variable _get_stats :
  string -> gmap string (list (gmap string float)) -> string -> float * float.

Definition _compute_metrics (predictions_and_labels : list (list float) * list nat)
    : outcome (gmap string float) :=
  let '(predictions, labels) := predictions_and_labels in
  match argmax_last_axis predictions with
  | None => Raised (ValueError "attempt to get argmax of an empty sequence")
  | Some predictions =>
      let results := _metric_compute predictions labels "macro" in
      match results !! "f1" with
      | Some f1 => Returned {[ "macro_f1" := f1 ]}
      | None => Raised (KeyError "f1")
      end
  end.

(** The two messages of lines 107-114. *)
Definition message_with_std_err (model_id : string)
    (train_mean train_std_err test_mean test_std_err : float) : string :=
  "Mean macro-average F1-scores on AngryTweets for " +:+ model_id +:+ ":" +:+
  newline +:+
  "  - Train: " +:+ format_2f train_mean +:+ " +- " +:+ format_2f train_std_err +:+
  newline +:+
  "  - Test: " +:+ format_2f test_mean +:+ " +- " +:+ format_2f test_std_err.

Definition message_without_std_err (model_id : string)
    (train_mean test_mean : float) : string :=
  "Macro-average F1-scores on AngryTweets for " +:+ model_id +:+ ":" +:+
  newline +:+
  "  - Train: " +:+ format_2f train_mean +:+
  newline +:+
  "  - Test: " +:+ format_2f test_mean.

(** The state is the log: [logger.info] appends a record to it. *)
Definition _log_metrics (metrics : gmap string (list (gmap string float)))
    (model_id : string) : Py (list string) unit :=
  let '(train_mean, train_std_err) := _get_stats "train" metrics "macro_f1" in
  let '(test_mean, test_std_err) := _get_stats "test" metrics "macro_f1" in
  (* Multiply scores by x100 to make them easier to read *)
  let train_mean := (train_mean * 100)%float in
  let test_mean := (test_mean * 100)%float in
  let train_std_err := (train_std_err * 100)%float in
  let test_std_err := (test_std_err * 100)%float in
  let msg :=
    if negb (PrimFloat.is_nan train_std_err) then
      message_with_std_err model_id train_mean train_std_err test_mean test_std_err
    else
      message_without_std_err model_id train_mean test_mean in
  py_modify (fun log => log ++ [msg]).
End Benchmark.
End AngryTweetsBenchmark.

(** ** The order of the floats that are numbers

    A float that is a number has a key of three integers, and the floats
    compare as their keys do, in lexicographic order. *)

Definition sf_key (s : spec_float) : Z * Z * Z :=
  match s with
  | S754_nan => (0, 0, 0)
  | S754_zero _ => (0, 0, 0)
  | S754_infinity true => (-2, 0, 0)
  | S754_infinity false => (2, 0, 0)
  | S754_finite true m e => (-1, - e, - Z.pos m)
  | S754_finite false m e => (1, e, Z.pos m)
  end.

Definition key_lt (a b : Z * Z * Z) : Prop :=
  a.1.1 < b.1.1 \/
  (a.1.1 = b.1.1 /\ (a.1.2 < b.1.2 \/ (a.1.2 = b.1.2 /\ a.2 < b.2))).

Definition key_le (a b : Z * Z * Z) : Prop :=
  a.1.1 < b.1.1 \/
  (a.1.1 = b.1.1 /\ (a.1.2 < b.1.2 \/ (a.1.2 = b.1.2 /\ a.2 <= b.2))).

(** ** The class that the argmax selects *)

(** [c] is the class that the argmax selects in [row]: the place of the
    first not-a-number score or, when every score is a number, the first
    place of the greatest score. *)
Definition is_argmax (row : list float) (c : nat) : Prop :=
  exists x,
    row !! c = Some x /\
    (PrimFloat.is_nan x = true \/ forall y, y ∈ row -> (y <=? x)%float = true) /\
    (forall j y, (j < c)%nat -> row !! j = Some y ->
       PrimFloat.is_nan y = false /\
       (PrimFloat.is_nan x = true \/ (y <? x)%float = true)).

(** ** Sample objects *)

Module Examples.
Definition zero_init : nat -> nat -> float := fun _ _ => 0%float.

Definition ids (tok : string) : Z :=
  if String.eqb tok "[PAD]" then 0
  else if String.eqb tok "[SEP]" then 3
  else if String.eqb tok "<eos>" then 7
  else 1.

(** A tokenizer in the manner of GPT-2: no pad token, an EOS token, a
    declared length that stands for "not set". *)
Definition gpt_tokenizer : Tokenizer.t :=
  Tokenizer.mk (Some (10 ^ 30))
    (Some {[ "gpt2" := Some 1024; "gpt2-medium" := Some 1024; "other" := None ]})
    (Some 8%N) None (Some "<eos>") None "right" ids.

(** A tokenizer in the manner of BERT. *)
Definition bert_tokenizer : Tokenizer.t :=
  Tokenizer.mk (Some 512) None (Some 8%N) (Some "[PAD]") None (Some "[SEP]")
    "right" ids.

Definition sep_tokenizer : Tokenizer.t :=
  Tokenizer.mk None None (Some 8%N) None None (Some "[SEP]") "right" ids.

Definition bare_tokenizer : Tokenizer.t :=
  Tokenizer.mk None None None None None None "right" ids.

Definition leaf (w : option Tensor) (n : option Z) : Module := MkModule w n [].

Definition token_type_table (w : Tensor) : Module :=
  leaf (Some w) (Some (shape0 w)).

(** The module tree of a BERT-like model for question answering, with
    the given token-type embedding table. *)
Definition bert_modules (token_types : Tensor) : Module :=
  MkModule None None
    [("bert",
      MkModule None None
        [("embeddings",
          MkModule None None
            [("word_embeddings", leaf (Some [[1; 2]; [3; 4]]%float) (Some 2));
             ("position_embeddings", leaf (Some [[5; 6]]%float) (Some 1));
             ("token_type_embeddings", token_type_table token_types);
             ("dropout", leaf None None)]);
         ("encoder",
          MkModule None None [("layer", leaf None None)])]);
     ("qa_outputs", leaf (Some [[7; 8]]%float) None)].

(** A tree with no token-type embeddings. *)
Definition gpt_modules : Module :=
  MkModule None None
    [("transformer",
      MkModule None None
        [("wte", leaf (Some [[1; 2]; [3; 4]]%float) (Some 2));
         ("wpe", leaf (Some [[5; 6]]%float) (Some 1))]);
     ("lm_head", leaf None None)].

Definition model_of (vocab : Z) (modules : Module) : Model.t :=
  Model.mk (Config.mk (Some 1024) (Some vocab) None (Some 1))
    (replicate (Z.to_nat vocab) [1; 2]%float) modules.

Definition one_row : Tensor := [[0.5; 0.25]]%float.
Definition two_rows : Tensor := [[0.5; 0.25]; [0.75; 0.125]]%float.

Definition small_model : Model.t := model_of 5 (bert_modules one_row).
Definition expanded_model : Model.t := model_of 5 (bert_modules two_rows).
Definition gpt_model : Model.t := model_of 8 gpt_modules.

(** The statistics of a single run, and of several runs. *)
Definition single_run_stats (split : string)
    (metrics : gmap string (list (gmap string float))) (metric_name : string)
    : float * float :=
  if String.eqb split "train" then (0.75, nan)%float else (0.5, nan)%float.

Definition several_runs_stats (split : string)
    (metrics : gmap string (list (gmap string float))) (metric_name : string)
    : float * float :=
  if String.eqb split "train" then (0.75, 0.0078125)%float
  else (0.5, 0.015625)%float.

(** A macro-averaged F1: the unweighted mean, over the classes that occur,
    of the F1 score of each class. *)
Definition to_float (n : nat) : float :=
  PrimFloat.of_uint63 (Uint63.of_Z (Z.of_nat n)).

Definition count_pairs (f : nat -> nat -> bool) (l : list (nat * nat)) : nat :=
  length (List.filter (fun pr => f pr.1 pr.2) l).

Definition class_f1 (pairs : list (nat * nat)) (c : nat) : float :=
  let tp := count_pairs (fun p r => Nat.eqb p c && Nat.eqb r c) pairs in
  let fp := count_pairs (fun p r => Nat.eqb p c && negb (Nat.eqb r c)) pairs in
  let fn := count_pairs (fun p r => negb (Nat.eqb p c) && Nat.eqb r c) pairs in
  if Nat.eqb (2 * tp + fp + fn) 0 then 0%float
  else (to_float (2 * tp) / to_float (2 * tp + fp + fn))%float.

Definition macro_f1_metric (predictions references : list nat)
    (average : string) : gmap string float :=
  let classes := remove_dups (references ++ predictions) in
  let scores := class_f1 (zip predictions references) <$> classes in
  if String.eqb average "macro" then
    {[ "f1" := (foldr PrimFloat.add 0%float scores / to_float (length classes))%float ]}
  else ∅.

(** Four documents, two of each class, and scores that always favour the
    first class. *)
Definition stub_predictions : list (list float) :=
  replicate 4 [0.75; 0.25]%float.
Definition balanced_labels : list nat := [0; 0; 1; 1]%nat.
End Examples.

(** ** The end of the walk *)

(** Every value that the loop of lines 34-37 stores is one on which the walk
    of lines 59-68 comes to an end. *)
Definition walk_ends (c : Children) : Prop :=
  truthy (Some c) = true /\ exists l, attribute_list_of c = Some l.

(** ** Loading the data of the AngryTweets benchmark *)

(** What [json.loads] gives. *)
#[warnings="-register-all"]
Inductive json : Type :=
  | JNull
  | JBool (b : bool)
  | JInt (z : Z)
  | JFloat (x : float)
  | JString (s : string)
  | JArray (items : list json)
  | JObject (fields : gmap string json).

(** The exceptions of the loading. *)
Inductive load_exn : Type :=
  | RequestException (url : string)
  | JSONDecodeError (doc : string)
  | MissingKey (key : string)
  | TypeError.

(** Python's [s.split(sep)] for a separator of one character. *)
Fixpoint py_split (sep : Ascii.ascii) (s : string) : list string :=
  match s with
  | EmptyString => [EmptyString]
  | String c rest =>
      if Ascii.eqb c sep then EmptyString :: py_split sep rest
      else
        match py_split sep rest with
        | first :: others => String c first :: others
        | [] => [String c EmptyString]
        end
  end.

(** [value[key]] on a value that [json.loads] gave: only a dict can be
    subscripted with a string. *)
Definition subscript (key : string) (value : json) : load_exn + json :=
  match value with
  | JObject fields =>
      match fields !! key with
      | Some v => inr v
      | None => inl (MissingKey key)
      end
  | _ => inl TypeError
  end.

(** A list comprehension whose body may raise: the first exception, in the
    order of the list, ends it. *)
Fixpoint comprehension {A B} (f : A -> load_exn + B) (l : list A)
    : load_exn + list B :=
  match l with
  | [] => inr []
  | x :: rest =>
      match f x with
      | inl e => inl e
      | inr y =>
          match comprehension f rest with
          | inl e => inl e
          | inr ys => inr (y :: ys)
          end
      end
  end.

Module Loader.
Section WithLibraries.
(** The network, the JSON parser and the dataset library are taken as
    given: the text of the response to a GET, [json.loads], and
    [Dataset.from_dict] on the two columns. *)
Variable Dataset : Type.
Variable requests_get_text : string -> load_exn + string.
Variable json_loads : string -> load_exn + json.
Variable from_dict : list json -> list json -> load_exn + Dataset.

(** Lines 73-77, from the text of the response. *)
Definition dataset_from_text (text : string) : load_exn + Dataset :=
  let records := py_split (Ascii.ascii_of_nat 10) text in
  match comprehension json_loads
          (List.filter (fun record => negb (String.eqb record "")) records) with
  | inl e => inl e
  | inr data =>
      match comprehension (subscript "tweet") data with
      | inl e => inl e
      | inr docs =>
          match comprehension (subscript "label") data with
          | inl e => inl e
          | inr labels => from_dict docs labels
          end
      end
  end.

Definition get_dataset_from_url (url : string) : load_exn + Dataset :=
  match requests_get_text url with
  | inl e => inl e
  | inr text => dataset_from_text text
  end.

Definition base_url : string :=
  "https://raw.githubusercontent.com/saattrupdan/ScandEval/" +:+
  "main/datasets/angry_tweets/".

Definition _load_data : load_exn + (Dataset * Dataset) :=
  match get_dataset_from_url (base_url +:+ "train.jsonl") with
  | inl e => inl e
  | inr train =>
      match get_dataset_from_url (base_url +:+ "test.jsonl") with
      | inl e => inl e
      | inr test => inr (train, test)
      end
  end.
End WithLibraries.
End Loader.

(** The records of a text: its lines that are not empty. *)
Definition records_of (text : string) : list string :=
  List.filter (fun record => negb (String.eqb record ""))
    (py_split (Ascii.ascii_of_nat 10) text).

(** ** More sample objects *)

Module Samples.


Definition three_rows : Tensor := [[0.5; 0.25]; [0.75; 0.125]; [1; 2]]%float.

Definition three_rows_model : Model.t :=
  Examples.model_of 5 (Examples.bert_modules three_rows).

(** A model whose configuration disagrees with the BERT tokenizer on the pad
    token id. *)
Definition odd_pad_model : Model.t :=
  Model.mk (Config.mk (Some 1024) (Some 8) (Some 5) (Some 1))
    (replicate 8 [1; 2]%float) Examples.gpt_modules.

(** A parser that knows four lines, and a dataset that is its two columns. *)
Definition tweet_and_label : json :=
  JObject {[ "tweet" := JString "hej"; "label" := JString "positiv" ]}.
Definition tweet_only : json := JObject {[ "tweet" := JString "hm" ]}.
Definition label_only : json := JObject {[ "label" := JString "negativ" ]}.

Definition sample_loads (record : string) : load_exn + json :=
  if String.eqb record "good" then inr tweet_and_label
  else if String.eqb record "nolabel" then inr tweet_only
  else if String.eqb record "notweet" then inr label_only
  else if String.eqb record "list" then inr (JArray [])
  else inl (JSONDecodeError record).

Definition sample_from_dict (docs labels : list json)
    : load_exn + (list json * list json) :=
  inr (docs, labels).

Definition two_good_lines : string :=
  "good" +:+ newline +:+ newline +:+ "good" +:+ newline.
Definition bad_line_last : string :=
  "nolabel" +:+ newline +:+ "bad" +:+ newline +:+ "good".
Definition keys_missing : string :=
  "nolabel" +:+ newline +:+ "notweet".
End Samples.

(** * Proofs *)

(** ** Properties of the alignment *)

Lemma py_min_le x xs : py_min x xs <= x.
Proof.
  unfold py_min. revert x.
  induction xs as [|y ys IH]; intros x; simpl; [lia|].
  specialize (IH (Z.min x y)). lia.
Qed.

Lemma py_min_lower x xs s : s ∈ x :: xs -> py_min x xs <= s.
Proof.
  unfold py_min. revert x.
  induction xs as [|y ys IH]; intros x Hs; simpl.
  - apply list_elem_of_singleton in Hs. lia.
  - pose proof (py_min_le (Z.min x y) ys) as Hle. unfold py_min in Hle.
    apply elem_of_cons in Hs as [->|Hs]; [lia|].
    apply elem_of_cons in Hs as [->|Hs]; [lia|].
    apply IH. now apply elem_of_cons; right.
Qed.

Lemma py_min_elem x xs : py_min x xs ∈ x :: xs.
Proof.
  unfold py_min. revert x.
  induction xs as [|y ys IH]; intros x; simpl.
  - apply elem_of_cons; now left.
  - specialize (IH (Z.min x y)).
    apply elem_of_cons in IH as [Heq|Hin].
    + rewrite Heq. destruct (Z.min_spec x y) as [[_ ->]|[_ ->]].
      * apply elem_of_cons; now left.
      * apply elem_of_cons; right. apply elem_of_cons; now left.
    + apply elem_of_cons; right. now apply elem_of_cons; right.
Qed.

Lemma not_none_sizes_elem sizes s :
  s ∈ not_none_sizes sizes <-> exists arch, sizes !! arch = Some (Some s).
Proof.
  unfold not_none_sizes. rewrite list_elem_of_omap. split.
  - intros (o & Ho & Hs). simpl in Hs. subst o.
    apply list_elem_of_fmap in Ho as ([arch o] & Heq & Hin). simpl in Heq. subst o.
    exists arch. now apply elem_of_map_to_list.
  - intros (arch & Hl). exists (Some s). split; [|reflexivity].
    apply list_elem_of_fmap. exists (arch, Some s). split; [reflexivity|].
    now apply elem_of_map_to_list.
Qed.

Lemma all_max_lengths_signal model tokenizer s :
  s ∈ all_max_lengths model tokenizer <-> signal model tokenizer s.
Proof.
  unfold all_max_lengths, signal, declared_signal, positional_signal,
    input_size_signal.
  destruct (Tokenizer.model_max_length tokenizer) as [l|];
    [destruct (Z.ltb_spec l 100000)|];
    (destruct (Config.max_position_embeddings (Model.config model)) as [p|];
     [destruct (Tokenizer.pad_token_id tokenizer) as [i|]|]);
    destruct (Tokenizer.max_model_input_sizes tokenizer) as [sizes|];
    simpl; rewrite ?elem_of_app, ?elem_of_cons, ?not_none_sizes_elem,
      ?elem_of_nil; split; intros Hsig;
    repeat match goal with
      | H : _ \/ _ |- _ => destruct H
      | H : _ /\ _ |- _ => destruct H
      | H : ex _ |- _ => destruct H
      | H : False |- _ => destruct H
      | H : Some _ = Some _ |- _ => injection H as H
      | H : None = Some _ |- _ => discriminate H
      | H : Some _ = None |- _ => discriminate H
      end; subst; try lia; eauto 10.
Qed.

(** Unfolds the monad of a run of the alignment. *)
Ltac run_align :=
  unfold align, aligned_tokenizer, aligned_model, align_model_and_tokenizer,
    py_bind, py_when, py_ret, py_raise, get_model, get_tokenizer,
    modify_model, modify_tokenizer, py_modify; simpl.

Lemma align_model_max_length init model tokenizer raise_errors :
  Tokenizer.model_max_length
    (aligned_tokenizer (align init model tokenizer raise_errors))
  = Some (effective_max_length model tokenizer).
Proof.
  unfold effective_max_length. run_align.
  destruct (all_max_lengths model tokenizer) as [|x xs]; simpl;
    (destruct (Config.vocab_size (Model.config model)) as [mv|];
     [destruct (Tokenizer.vocab_size tokenizer) as [tv|];
      [destruct (mv <? Z.of_N tv); [destruct raise_errors|]|]|]);
    simpl; try reflexivity;
    destruct (Tokenizer.pad_token tokenizer);
    [|destruct (Tokenizer.eos_token tokenizer);
      [|destruct (Tokenizer.sep_token tokenizer)]..]; reflexivity.
Qed.

Lemma effective_max_length_least model tokenizer :
  least_or_default (signal model tokenizer) 512
    (effective_max_length model tokenizer).
Proof.
  unfold effective_max_length, least_or_default.
  destruct (all_max_lengths model tokenizer) as [|x xs] eqn:E.
  - right. split; [|reflexivity].
    intros s Hs. apply all_max_lengths_signal in Hs. rewrite E in Hs.
    now apply elem_of_nil in Hs.
  - left. split.
    + apply all_max_lengths_signal. rewrite E. apply py_min_elem.
    + intros s Hs. apply all_max_lengths_signal in Hs. rewrite E in Hs.
      now apply py_min_lower.
Qed.

(** C1: whatever the pair and the flag, after the alignment the tokenizer's
    [model_max_length] is the least of the available signals (the declared
    length when it is below 100000, the position embeddings minus the pad
    token id minus one, and each size of [max_model_input_sizes] that is not
    None), and 512 when there is no signal. *)
Theorem align_max_length_is_least_signal init model tokenizer raise_errors :
  exists v,
    Tokenizer.model_max_length
      (aligned_tokenizer (align init model tokenizer raise_errors)) = Some v /\
    least_or_default (signal model tokenizer) 512 v.
Proof.
  exists (effective_max_length model tokenizer). split.
  - apply align_model_max_length.
  - apply effective_max_length_least.
Qed.

Lemma vocab_conflict_lt model tokenizer mv tv :
  Config.vocab_size (Model.config model) = Some mv ->
  Tokenizer.vocab_size tokenizer = Some tv ->
  mv < Z.of_N tv ->
  vocab_conflict model tokenizer = true.
Proof.
  intros Hm Ht Hlt. unfold vocab_conflict. rewrite Hm, Ht.
  now apply Z.ltb_lt.
Qed.

Lemma resize_token_embeddings_rows init n model :
  length (Model.input_embeddings (Model.resize_token_embeddings init n model))
  = N.to_nat n.
Proof.
  unfold Model.resize_token_embeddings. simpl.
  rewrite length_app, length_take, !length_fmap, length_seq. lia.
Qed.

Lemma resize_token_embeddings_keeps init n model i :
  (i < N.to_nat n)%nat ->
  Model.input_embeddings (Model.resize_token_embeddings init n model) !! i
  = match Model.input_embeddings model !! i with
    | Some row => Some row
    | None =>
        Some ((fun j => init i j) <$>
              seq 0 (length (default [] (head (Model.input_embeddings model)))))
    end.
Proof.
  intros Hi. unfold Model.resize_token_embeddings.
  cbn [Model.input_embeddings].
  destruct (Model.input_embeddings model !! i) as [row|] eqn:E.
  - rewrite lookup_app_l by (rewrite length_take; apply lookup_lt_Some in E; lia).
    rewrite lookup_take_lt by lia. exact E.
  - apply lookup_ge_None in E.
    rewrite lookup_app_r by (rewrite length_take; lia).
    rewrite length_take, list_lookup_fmap.
    replace (length (Model.input_embeddings model) `min` N.to_nat n)%nat
      with (length (Model.input_embeddings model)) by lia.
    rewrite lookup_seq_lt by lia. cbn [fmap option_fmap option_map].
    do 3 f_equal. lia.
Qed.

(** C2: when errors are to be raised and the model's vocabulary is smaller
    than the tokenizer's, the alignment raises [InvalidBenchmark] and the
    model is what it was: its embedding table and its configuration are
    untouched. *)
Theorem align_vocab_conflict_raises init model tokenizer mv tv :
  Config.vocab_size (Model.config model) = Some mv ->
  Tokenizer.vocab_size tokenizer = Some tv ->
  mv < Z.of_N tv ->
  let r := align init model tokenizer true in
  snd r = Raised (InvalidBenchmark vocab_error) /\ aligned_model r = model.
Proof.
  intros Hm Ht Hlt. apply Z.ltb_lt in Hlt. run_align.
  destruct (all_max_lengths model tokenizer); simpl;
    rewrite Hm, Ht, Hlt; simpl; split; reflexivity.
Qed.

(** C3: when errors are not to be raised and the model's vocabulary is
    smaller than the tokenizer's, the model's input embedding table has,
    after the alignment, one row more than the tokenizer has entries (and
    the configuration says so); this holds of the model however the call
    ends. *)
Theorem align_vocab_conflict_resizes init model tokenizer mv tv :
  Config.vocab_size (Model.config model) = Some mv ->
  Tokenizer.vocab_size tokenizer = Some tv ->
  mv < Z.of_N tv ->
  let model' := aligned_model (align init model tokenizer false) in
  Z.of_nat (length (Model.input_embeddings model')) = Z.of_N tv + 1 /\
  Config.vocab_size (Model.config model') = Some (Z.of_N tv + 1).
Proof.
  intros Hm Ht Hlt. apply Z.ltb_lt in Hlt.
  assert (Hrows : Z.of_nat (N.to_nat (tv + 1)) = Z.of_N tv + 1) by lia.
  assert (Hcfg : Z.of_N (tv + 1) = Z.of_N tv + 1) by lia.
  run_align.
  destruct (all_max_lengths model tokenizer); simpl;
    rewrite Hm, Ht, Hlt; simpl;
    (destruct (Tokenizer.pad_token tokenizer);
     [|destruct (Tokenizer.eos_token tokenizer);
       [|destruct (Tokenizer.sep_token tokenizer)]]); simpl;
    rewrite ?length_app, ?length_take, ?length_fmap, ?length_seq, ?Hcfg;
    (split; [lia|reflexivity]).
Qed.

(** C4: a tokenizer with no pad token, no EOS token and no SEP token makes
    the alignment raise [InvalidBenchmark]; the tokenizer still has no pad
    token afterwards. *)
Theorem align_no_padding_candidate_raises init model tokenizer raise_errors :
  Tokenizer.pad_token tokenizer = None ->
  Tokenizer.eos_token tokenizer = None ->
  Tokenizer.sep_token tokenizer = None ->
  let r := align init model tokenizer raise_errors in
  (exists msg, snd r = Raised (InvalidBenchmark msg)) /\
  Tokenizer.pad_token (aligned_tokenizer r) = None.
Proof.
  intros Hpad Heos Hsep. run_align.
  destruct (all_max_lengths model tokenizer); simpl;
    (destruct (Config.vocab_size (Model.config model)) as [mv|];
     [destruct (Tokenizer.vocab_size tokenizer) as [tv|];
      [destruct (mv <? Z.of_N tv); [destruct raise_errors|]|]|]);
    simpl; rewrite ?Hpad, ?Heos, ?Hsep; simpl;
    (split; [eexists; reflexivity|first [assumption|reflexivity]]).
Qed.

(** The alignment returns unless the vocabulary check raises. *)
Lemma align_synthesizes_pad init model tokenizer raise_errors tok :
  Tokenizer.pad_token tokenizer = None ->
  match Tokenizer.eos_token tokenizer with
  | Some eos => Some eos
  | None => Tokenizer.sep_token tokenizer
  end = Some tok ->
  let r := align init model tokenizer raise_errors in
  (snd r = Returned tt <->
   raise_errors && vocab_conflict model tokenizer = false) /\
  (snd r = Returned tt ->
   Tokenizer.padding_side (aligned_tokenizer r) = "left" /\
   Tokenizer.pad_token (aligned_tokenizer r) = Some tok /\
   Config.pad_token_id (Model.config (aligned_model r))
   = Some (Tokenizer.convert_tokens_to_ids tokenizer tok)).
Proof.
  intros Hpad Htok. unfold vocab_conflict. run_align.
  destruct (all_max_lengths model tokenizer); simpl;
    (destruct (Config.vocab_size (Model.config model)) as [mv|];
     [destruct (Tokenizer.vocab_size tokenizer) as [tv|];
      [destruct (mv <? Z.of_N tv); [destruct raise_errors|]|]|]);
    simpl; rewrite ?Hpad;
    (destruct (Tokenizer.eos_token tokenizer) as [eos|];
     [|destruct (Tokenizer.sep_token tokenizer) as [sep|]]);
    simpl; try discriminate Htok; try (injection Htok as ->);
    rewrite ?andb_false_r, ?andb_true_r;
    (split; [split|]); try discriminate; try reflexivity; intros _;
    unfold Tokenizer.pad_token_id; simpl; repeat split; reflexivity.
Qed.

(** C5: for a tokenizer with no pad token, whenever the alignment returns
    (it does unless the vocabulary check raises), the tokenizer it returns
    pads on the left and has as pad token the EOS token when there is one,
    and the SEP token when there is a SEP token and no EOS token. *)
Theorem align_pads_with_eos_or_sep init model tokenizer raise_errors :
  Tokenizer.pad_token tokenizer = None ->
  let r := align init model tokenizer raise_errors in
  (forall eos,
     Tokenizer.eos_token tokenizer = Some eos ->
     (snd r = Returned tt <->
      raise_errors && vocab_conflict model tokenizer = false) /\
     (snd r = Returned tt ->
      Tokenizer.padding_side (aligned_tokenizer r) = "left" /\
      Tokenizer.pad_token (aligned_tokenizer r) = Some eos)) /\
  (forall sep,
     Tokenizer.eos_token tokenizer = None ->
     Tokenizer.sep_token tokenizer = Some sep ->
     (snd r = Returned tt <->
      raise_errors && vocab_conflict model tokenizer = false) /\
     (snd r = Returned tt ->
      Tokenizer.padding_side (aligned_tokenizer r) = "left" /\
      Tokenizer.pad_token (aligned_tokenizer r) = Some sep)).
Proof.
  intros Hpad r. split.
  - intros eos Heos.
    destruct (align_synthesizes_pad init model tokenizer raise_errors eos Hpad)
      as [Hret Hres]; [now rewrite Heos|].
    split; [exact Hret|]. intros H. destruct (Hres H) as (? & ? & _). now split.
  - intros sep Heos Hsep.
    destruct (align_synthesizes_pad init model tokenizer raise_errors sep Hpad)
      as [Hret Hres]; [now rewrite Heos|].
    split; [exact Hret|]. intros H. destruct (Hres H) as (? & ? & _). now split.
Qed.

Lemma least_or_default_iff (P Q : Z -> Prop) dflt v :
  (forall s, P s <-> Q s) ->
  least_or_default P dflt v -> least_or_default Q dflt v.
Proof.
  intros HPQ [[Hv Hle]|[Hno ->]]; [left|right].
  - split; [now apply HPQ|]. intros s Hs. apply Hle. now apply HPQ.
  - split; [|reflexivity]. intros s Hs. apply (Hno s). now apply HPQ.
Qed.

(** C10: when the tokenizer has no pad token id at the call, the
    [model_max_length] that the alignment sets is the least of the declared
    length and the input sizes alone (512 when there is neither), whatever
    [max_position_embeddings] the model declares and whatever EOS or SEP
    token the alignment goes on to use as pad token. *)
Theorem align_max_length_ignores_late_pad_token init model tokenizer raise_errors :
  Tokenizer.pad_token_id tokenizer = None ->
  exists v,
    Tokenizer.model_max_length
      (aligned_tokenizer (align init model tokenizer raise_errors)) = Some v /\
    least_or_default
      (fun s => declared_signal tokenizer s \/ input_size_signal tokenizer s)
      512 v.
Proof.
  intros Hpad. exists (effective_max_length model tokenizer). split.
  - apply align_model_max_length.
  - apply (least_or_default_iff (signal model tokenizer));
      [|apply effective_max_length_least].
    intros s. unfold signal, positional_signal. rewrite Hpad. split.
    + intros [H|[(p & i & _ & Hi & _)|H]]; [now left|discriminate Hi|now right].
    + intros [H|H]; [now left|now right; right].
Qed.

(** ** Properties of the module-tree functions *)

Lemma get_children_of_module_eq name w n cs :
  get_children_of_module name (MkModule w n cs)
  = match cs with
    | [] =>
        if String.eqb name token_type_embeddings_name
        then Some (CModule (MkModule w n cs))
        else None
    | _ :: _ => Some (CDict (collect_children cs []))
    end.
Proof. destruct cs; reflexivity. Qed.

Lemma find_token_type_embeddings_eq name w n cs :
  find_token_type_embeddings name (MkModule w n cs)
  = match cs with
    | [] =>
        if String.eqb name token_type_embeddings_name
        then Some ([], MkModule w n cs)
        else None
    | _ :: _ => find_in_children cs
    end.
Proof. destruct cs; reflexivity. Qed.

Lemma unique_names_eq w n cs :
  unique_names (MkModule w n cs)
  = bool_decide (NoDup cs.*1) && unique_names_children cs.
Proof. reflexivity. Qed.

Lemma unique_names_inv w n cs :
  unique_names (MkModule w n cs) = true ->
  NoDup cs.*1 /\ unique_names_children cs = true.
Proof.
  rewrite unique_names_eq. intros H. apply andb_prop in H as [Hd Hc].
  split; [now apply bool_decide_eq_true in Hd|exact Hc].
Qed.

(** A later assignment under another key leaves the first item in place. *)
Lemma collect_children_head l k v acc :
  k ∉ l.*1 ->
  exists rest, collect_children l ((k, v) :: acc) = (k, v) :: rest.
Proof.
  revert acc. induction l as [|[subname submodule] l IH]; intros acc Hk.
  - now exists acc.
  - simpl in Hk. apply not_elem_of_cons in Hk as [Hne Hk]. simpl.
    destruct (get_children_of_module subname submodule) as [c|] eqn:E;
      [destruct (truthy (Some c))|]; try now apply IH.
    simpl. destruct (String.eqb_spec subname k) as [->|_]; [done|].
    now apply IH.
Qed.

(** Without token-type embeddings below them, the children give an empty
    dict. *)
Lemma collect_children_none l :
  Forall (fun p => forall name,
            find_token_type_embeddings name p.2 = None ->
            truthy (get_children_of_module name p.2) = false) l ->
  find_in_children l = None ->
  collect_children l [] = [].
Proof.
  induction 1 as [|[subname submodule] l Hp _ IH]; intros Hfind; [reflexivity|].
  simpl in *.
  destruct (find_token_type_embeddings subname submodule) as [[path found]|] eqn:E;
    [discriminate|].
  rewrite (Hp subname E).
  destruct (get_children_of_module subname submodule); now apply IH.
Qed.

Lemma get_children_of_module_none module :
  forall name,
    find_token_type_embeddings name module = None ->
    truthy (get_children_of_module name module) = false.
Proof.
  induction module as [w n cs IH] using Module_tree_ind. intros name.
  rewrite get_children_of_module_eq, find_token_type_embeddings_eq.
  destruct cs as [|p cs'].
  - destruct (String.eqb name token_type_embeddings_name); [discriminate|reflexivity].
  - intros Hfind. now rewrite (collect_children_none (p :: cs') IH Hfind).
Qed.

(** With token-type embeddings below them, the dict of the children starts
    with the item that leads to the first of them. *)
Lemma collect_children_some l path found :
  Forall (fun p => forall name path found,
            unique_names p.2 = true ->
            find_token_type_embeddings name p.2 = Some (path, found) ->
            exists c, get_children_of_module name p.2 = Some c /\
                      truthy (Some c) = true /\
                      attribute_list_of c = Some path) l ->
  NoDup l.*1 ->
  unique_names_children l = true ->
  find_in_children l = Some (path, found) ->
  exists item rest,
    collect_children l [] = item :: rest /\
    attribute_list_of (CDict (item :: rest)) = Some path.
Proof.
  induction 1 as [|[subname submodule] l Hp Hl IH]; intros Hdup Huniq Hfind;
    [discriminate|].
  simpl in Hdup, Huniq, Hfind |- *. cbn [snd] in Hp.
  apply NoDup_cons in Hdup as [Hnotin Hdup].
  apply andb_prop in Huniq as [Hu Huniq].
  destruct (find_token_type_embeddings subname submodule)
    as [[path' found']|] eqn:E.
  - injection Hfind as <- <-.
    destruct (Hp subname path' found' Hu E) as (c & -> & Htrue & Hattr).
    rewrite Htrue. simpl.
    destruct (collect_children_head l subname c [] Hnotin) as [rest ->].
    exists (subname, c), rest. split; [reflexivity|]. simpl. now rewrite Hattr.
  - rewrite (get_children_of_module_none submodule subname E).
    destruct (get_children_of_module subname submodule); now apply IH.
Qed.

Lemma get_children_of_module_some module :
  forall name path found,
    unique_names module = true ->
    find_token_type_embeddings name module = Some (path, found) ->
    exists c, get_children_of_module name module = Some c /\
              truthy (Some c) = true /\
              attribute_list_of c = Some path.
Proof.
  induction module as [w n cs IH] using Module_tree_ind.
  intros name path found Huniq.
  apply unique_names_inv in Huniq as [Hdup Huniq].
  rewrite get_children_of_module_eq, find_token_type_embeddings_eq.
  destruct cs as [|p cs'].
  - destruct (String.eqb name token_type_embeddings_name); [|discriminate].
    intros [= <- <-]. eexists. repeat split.
  - intros Hfind.
    destruct (collect_children_some (p :: cs') path found IH Hdup Huniq Hfind)
      as (item & rest & Hc & Hattr).
    exists (CDict (collect_children (p :: cs') [])). rewrite Hc.
    repeat split. exact Hattr.
Qed.

Lemma find_in_children_some l path found :
  find_in_children l = Some (path, found) ->
  exists l1 subname submodule l2 path',
    l = l1 ++ (subname, submodule) :: l2 /\
    path = subname :: path' /\
    find_token_type_embeddings subname submodule = Some (path', found) /\
    find_in_children l1 = None.
Proof.
  induction l as [|[subname submodule] l IH]; [discriminate|]. simpl.
  destruct (find_token_type_embeddings subname submodule)
    as [[path' found']|] eqn:E.
  - intros [= <- <-]. now exists [], subname, submodule, l, path'.
  - intros Hfind.
    destruct (IH Hfind) as (l1 & sn & sm & l2 & p' & -> & -> & Hsm & Hl1).
    exists ((subname, submodule) :: l1), sn, sm, l2, p'.
    repeat split; [exact Hsm|]. simpl. now rewrite E.
Qed.

Lemma find_in_children_app l1 l :
  find_in_children l1 = None ->
  find_in_children (l1 ++ l) = find_in_children l.
Proof.
  induction l1 as [|[subname submodule] l1 IH]; [reflexivity|]. simpl.
  destruct (find_token_type_embeddings subname submodule) as [[? ?]|];
    [discriminate|exact IH].
Qed.

Lemma lookup_child_app l1 subname submodule l2 :
  NoDup (l1 ++ (subname, submodule) :: l2).*1 ->
  lookup_child subname (l1 ++ (subname, submodule) :: l2) = Some submodule.
Proof.
  induction l1 as [|[n c] l1 IH]; simpl; intros Hdup.
  - now rewrite String.eqb_refl.
  - apply NoDup_cons in Hdup as [Hnotin Hdup].
    destruct (String.eqb_spec subname n) as [->|_]; [|now apply IH].
    exfalso. apply Hnotin. rewrite fmap_app, elem_of_app. right.
    simpl. apply elem_of_cons. now left.
Qed.

Lemma alter_child_app f l1 subname submodule l2 :
  NoDup (l1 ++ (subname, submodule) :: l2).*1 ->
  alter_child subname f (l1 ++ (subname, submodule) :: l2)
  = l1 ++ (subname, f submodule) :: l2.
Proof.
  induction l1 as [|[n c] l1 IH]; simpl; intros Hdup.
  - now rewrite String.eqb_refl.
  - apply NoDup_cons in Hdup as [Hnotin Hdup].
    destruct (String.eqb_spec subname n) as [->|_]; [|now rewrite IH].
    exfalso. apply Hnotin. rewrite fmap_app, elem_of_app. right.
    simpl. apply elem_of_cons. now left.
Qed.

Lemma unique_names_children_app l1 p l2 :
  unique_names_children (l1 ++ p :: l2) = true ->
  unique_names p.2 = true.
Proof.
  induction l1 as [|[n c] l1 IH]; simpl.
  - destruct p. intros H. now apply andb_prop in H as [? _].
  - intros H. apply andb_prop in H as [_ H]. now apply IH.
Qed.

Lemma unique_names_children_alter l1 n c c' l2 :
  unique_names_children (l1 ++ (n, c) :: l2) = true ->
  unique_names c' = true ->
  unique_names_children (l1 ++ (n, c') :: l2) = true.
Proof.
  induction l1 as [|[n1 c1] l1 IH]; simpl; intros H Hc'.
  - apply andb_prop in H as [_ H]. now rewrite Hc'.
  - apply andb_prop in H as [H1 H]. rewrite H1. now apply IH.
Qed.

(** The names collected by the walk lead, by [getattr], to the embeddings. *)
Lemma getattr_chain_find module :
  forall name path found,
    unique_names module = true ->
    find_token_type_embeddings name module = Some (path, found) ->
    getattr_chain module path = inr found.
Proof.
  induction module as [w n cs IH] using Module_tree_ind.
  intros name path found Huniq.
  apply unique_names_inv in Huniq as [Hdup Huniq].
  rewrite find_token_type_embeddings_eq. destruct cs as [|p cs'].
  - destruct (String.eqb name token_type_embeddings_name); [|discriminate].
    now intros [= <- <-].
  - intros Hfind. apply find_in_children_some in Hfind
      as (l1 & sn & sm & l2 & path' & Hl & -> & Hsm & _).
    rewrite Hl in *. simpl. unfold getattr. simpl.
    rewrite (lookup_child_app _ _ _ _ Hdup).
    apply Forall_app in IH as [_ IH]. apply Forall_cons in IH as [IH _].
    apply (IH sn); [|exact Hsm].
    exact (unique_names_children_app _ _ _ Huniq).
Qed.

(** A module found by the walk has no children and, unless it is the root,
    the name [token_type_embeddings]. *)
Lemma find_token_type_embeddings_leaf module :
  forall name path found,
    find_token_type_embeddings name module = Some (path, found) ->
    named_children found = [].
Proof.
  induction module as [w n cs IH] using Module_tree_ind.
  intros name path found.
  rewrite find_token_type_embeddings_eq. destruct cs as [|p cs'].
  - destruct (String.eqb name token_type_embeddings_name); [|discriminate].
    now intros [= <- <-].
  - intros Hfind. apply find_in_children_some in Hfind
      as (l1 & sn & sm & l2 & path' & Hl & -> & Hsm & _).
    rewrite Hl in IH.
    apply Forall_app in IH as [_ IH]. apply Forall_cons in IH as [IH _].
    exact (IH sn _ _ Hsm).
Qed.

(** Changing the embeddings in place keeps them where they are. *)
Lemma find_token_type_embeddings_mutate f module :
  forall name path found,
    unique_names module = true ->
    find_token_type_embeddings name module = Some (path, found) ->
    named_children (f found) = [] ->
    find_token_type_embeddings name (mutate_at path f module)
    = Some (path, f found).
Proof.
  induction module as [w n cs IH] using Module_tree_ind.
  intros name path found Huniq.
  apply unique_names_inv in Huniq as [Hdup Huniq].
  rewrite find_token_type_embeddings_eq. destruct cs as [|p cs'].
  - destruct (String.eqb name token_type_embeddings_name) eqn:En; [|discriminate].
    intros [= <- <-] Hleaf. simpl.
    destruct (f (MkModule w n [])) as [w' n' cs'] eqn:Ef. simpl in Hleaf. subst cs'.
    rewrite find_token_type_embeddings_eq. now rewrite En.
  - intros Hfind Hleaf. apply find_in_children_some in Hfind
      as (l1 & sn & sm & l2 & path' & Hl & -> & Hsm & Hl1).
    rewrite Hl in *. cbn [mutate_at weight num_embeddings named_children].
    rewrite (alter_child_app _ _ _ _ _ Hdup).
    rewrite find_token_type_embeddings_eq.
    assert (Hrec : find_token_type_embeddings sn (mutate_at path' f sm)
                   = Some (path', f found)).
    { apply Forall_app in IH as [_ IH]. apply Forall_cons in IH as [IH _].
      apply (IH sn); [|exact Hsm|exact Hleaf].
      exact (unique_names_children_app _ _ _ Huniq). }
    destruct (l1 ++ (sn, mutate_at path' f sm) :: l2) eqn:El;
      [now destruct l1|].
    rewrite <- El, (find_in_children_app _ _ Hl1). simpl. now rewrite Hrec.
Qed.

Lemma alter_child_names attribute f cs :
  (alter_child attribute f cs).*1 = cs.*1.
Proof.
  induction cs as [|[n c] cs IH]; [reflexivity|]. cbn [alter_child].
  destruct (String.eqb attribute n); rewrite !fmap_cons; [reflexivity|].
  now rewrite IH.
Qed.

Lemma unique_names_mutate f module :
  forall name path found,
    unique_names module = true ->
    find_token_type_embeddings name module = Some (path, found) ->
    unique_names (f found) = true ->
    unique_names (mutate_at path f module) = true.
Proof.
  induction module as [w n cs IH] using Module_tree_ind.
  intros name path found Huniq.
  pose proof (unique_names_inv _ _ _ Huniq) as [Hdup Hch].
  rewrite find_token_type_embeddings_eq. destruct cs as [|p cs'].
  - destruct (String.eqb name token_type_embeddings_name); [|discriminate].
    now intros [= <- <-].
  - intros Hfind Hf. apply find_in_children_some in Hfind
      as (l1 & sn & sm & l2 & path' & Hl & -> & Hsm & Hl1).
    rewrite Hl in *. cbn [mutate_at weight num_embeddings named_children].
    rewrite unique_names_eq.
    rewrite alter_child_names. apply andb_true_intro. split.
    + now apply bool_decide_eq_true.
    + rewrite (alter_child_app _ _ _ _ _ Hdup).
      apply (unique_names_children_alter _ _ sm); [exact Hch|].
      apply Forall_app in IH as [_ IH]. apply Forall_cons in IH as [IH _].
      apply (IH sn _ found); [|exact Hsm|exact Hf].
      exact (unique_names_children_app _ _ _ Hch).
Qed.

(** ** Properties of [setup_model_for_question_answering] *)

Lemma get_children_of_model_dict module path found :
  unique_names module = true ->
  find_token_type_embeddings "model" module = Some (path, found) ->
  exists d,
    get_children_of_module "model" module = Some (CDict d) /\
    truthy (Some (CDict d)) = true /\
    attribute_list_of (CDict d) = Some path.
Proof.
  intros Huniq Hfind.
  destruct (get_children_of_module_some module "model" path found Huniq Hfind)
    as (c & Hc & Htrue & Hattr).
  destruct c as [m|d]; [|now exists d].
  destruct module as [w n cs]. rewrite get_children_of_module_eq in Hc.
  destruct cs; discriminate Hc.
Qed.

Lemma setup_with_embeddings rand model path found w :
  unique_names (Model.module model) = true ->
  find_token_type_embeddings "model" (Model.module model) = Some (path, found) ->
  weight found = Some w ->
  setup_model_for_question_answering rand model
  = (Model.mk (Config.set_type_vocab_size 2 (Model.config model))
       (Model.input_embeddings model)
       (if shape0 w =? 1
        then mutate_at path (expand_token_type_embeddings rand w)
               (Model.module model)
        else Model.module model),
     Returned tt).
Proof.
  intros Huniq Hfind Hw.
  destruct (get_children_of_model_dict _ _ _ Huniq Hfind)
    as (d & Hc & Htrue & Hattr).
  unfold setup_model_for_question_answering, py_bind, py_get.
  rewrite Hc, Htrue, Hattr, (getattr_chain_find _ _ _ _ Huniq Hfind), Hw.
  unfold py_when, py_modify, py_ret.
  destruct (shape0 w =? 1); reflexivity.
Qed.

Lemma setup_without_embeddings rand model :
  find_token_type_embeddings "model" (Model.module model) = None ->
  setup_model_for_question_answering rand model = (model, Returned tt).
Proof.
  intros Hfind. apply get_children_of_module_none in Hfind.
  unfold setup_model_for_question_answering, py_bind, py_get.
  destruct (get_children_of_module "model" (Model.module model)) as [c|];
    [|reflexivity].
  now rewrite Hfind.
Qed.

Lemma rand_like_row rand (row : list float) :
  exists row', rand_like rand [row] = [row'] /\ length row' = length row.
Proof.
  unfold rand_like. simpl. eexists. split; [reflexivity|].
  now rewrite length_imap.
Qed.

Lemma token_type_embeddings_find model tte :
  token_type_embeddings model = Some tte ->
  exists path,
    find_token_type_embeddings "model" (Model.module model) = Some (path, tte).
Proof.
  unfold token_type_embeddings.
  destruct (find_token_type_embeddings "model" (Model.module model))
    as [[path found]|]; [|discriminate].
  intros [= <-]. now exists path.
Qed.

(** C6: a model whose token-type embedding table has the single row [row]
    has, after the set-up, a table of two rows of the same length, of which
    the first is [row], and a configuration with [type_vocab_size] 2; a
    model with no token-type embeddings comes back as it was. *)
Theorem setup_expands_single_row_table rand model :
  (forall tte row,
     unique_names (Model.module model) = true ->
     token_type_embeddings model = Some tte ->
     weight tte = Some [row] ->
     exists model' tte' row',
       setup_model_for_question_answering rand model = (model', Returned tt) /\
       token_type_embeddings model' = Some tte' /\
       weight tte' = Some [row; row'] /\
       length row' = length row /\
       Config.type_vocab_size (Model.config model') = Some 2) /\
  (token_type_embeddings model = None ->
   setup_model_for_question_answering rand model = (model, Returned tt)).
Proof.
  split.
  - intros tte row Huniq Htte Hw.
    apply token_type_embeddings_find in Htte as [path Hfind].
    destruct (rand_like_row rand row) as (row' & Hrand & Hlen).
    eexists _, (expand_token_type_embeddings rand [row] tte), row'.
    split; [exact (setup_with_embeddings rand model path tte [row] Huniq Hfind Hw)|].
    change (shape0 [row] =? 1) with true.
    unfold token_type_embeddings. cbn [Model.module Model.config].
    rewrite (find_token_type_embeddings_mutate _ _ _ _ _ Huniq Hfind)
      by exact (find_token_type_embeddings_leaf _ _ _ _ Hfind).
    repeat split; [|exact Hlen].
    unfold expand_token_type_embeddings, cat0. cbn [weight]. now rewrite Hrand.
  - unfold token_type_embeddings. intros Hnone.
    apply setup_without_embeddings.
    destruct (find_token_type_embeddings "model" (Model.module model));
      [discriminate|reflexivity].
Qed.

(** C7: on a model whose token-type embedding table has two rows or more,
    the set-up changes no weight: the module tree, and with it the table,
    its shape and its contents, is what it was. *)
Theorem setup_keeps_expanded_table rand model tte w :
  unique_names (Model.module model) = true ->
  token_type_embeddings model = Some tte ->
  weight tte = Some w ->
  2 <= shape0 w ->
  exists model',
    setup_model_for_question_answering rand model = (model', Returned tt) /\
    Model.module model' = Model.module model /\
    token_type_embeddings model' = Some tte.
Proof.
  intros Huniq Htte Hw Hrows.
  pose proof Htte as Htte'.
  apply token_type_embeddings_find in Htte as [path Hfind].
  eexists. split; [exact (setup_with_embeddings rand model path tte w Huniq Hfind Hw)|].
  replace (shape0 w =? 1) with false by (symmetry; apply Z.eqb_neq; lia).
  split; [reflexivity|exact Htte'].
Qed.

(** A second set-up, after one that expanded the table, changes no weight. *)
Corollary setup_twice_keeps_table rand rand' model tte row :
  unique_names (Model.module model) = true ->
  token_type_embeddings model = Some tte ->
  weight tte = Some [row] ->
  exists model' model'',
    setup_model_for_question_answering rand model = (model', Returned tt) /\
    setup_model_for_question_answering rand' model' = (model'', Returned tt) /\
    Model.module model'' = Model.module model'.
Proof.
  intros Huniq Htte Hw.
  apply token_type_embeddings_find in Htte as [path Hfind].
  pose proof (find_token_type_embeddings_leaf _ _ _ _ Hfind) as Hleaf.
  set (f := expand_token_type_embeddings rand [row]).
  assert (Hfind' : find_token_type_embeddings "model"
                     (mutate_at path f (Model.module model))
                   = Some (path, f tte))
    by (apply find_token_type_embeddings_mutate; assumption).
  assert (Huniq' : unique_names (mutate_at path f (Model.module model)) = true).
  { apply (unique_names_mutate f _ "model" path tte); try assumption.
    unfold f, expand_token_type_embeddings. rewrite Hleaf. reflexivity. }
  eexists _, _. split; [|split].
  - exact (setup_with_embeddings rand model path tte [row] Huniq Hfind Hw).
  - change (shape0 [row] =? 1) with true.
    apply (setup_with_embeddings rand' _ path (f tte)
             (cat0 [row] (rand_like rand [row]))); assumption || reflexivity.
  - reflexivity.
Qed.

(** ** Floats *)

Lemma SFcompare_refl s : s <> S754_nan -> SFcompare s s = Some Eq.
Proof.
  destruct s as [sg|sg| |sg m e]; intros Hs; try done; simpl.
  - now destruct sg.
  - destruct sg; rewrite Z.compare_refl, Pos.compare_cont_refl; reflexivity.
Qed.

Lemma is_nan_Prim2SF x :
  PrimFloat.is_nan x
  = match Prim2SF x with S754_nan => true | _ => false end.
Proof.
  unfold PrimFloat.is_nan. rewrite FloatAxioms.eqb_spec. unfold SFeqb.
  destruct (Prim2SF x) as [sg|sg| |sg m e] eqn:E;
    try (rewrite SFcompare_refl by discriminate); reflexivity.
Qed.

Lemma shr_1_nonneg mrs : 0 <= shr_m mrs -> 0 <= shr_m (shr_1 mrs).
Proof.
  destruct mrs as [m r s]. simpl.
  destruct m as [|[p|p|]|p]; simpl; lia.
Qed.

Lemma iter_pos_shr_1_nonneg p mrs :
  0 <= shr_m mrs -> 0 <= shr_m (SpecFloat.iter_pos shr_1 p mrs).
Proof.
  revert mrs. induction p as [p IH|p IH|]; intros mrs Hm; simpl.
  - apply IH, IH. now apply shr_1_nonneg.
  - now apply IH, IH.
  - now apply shr_1_nonneg.
Qed.

Lemma shr_fexp_nonneg m e l :
  0 <= m -> 0 <= shr_m (fst (shr_fexp prec emax m e l)).
Proof.
  intros Hm. unfold shr_fexp, shr.
  assert (H0 : 0 <= shr_m (shr_record_of_loc m l))
    by (now destruct l as [|[]]).
  destruct (fexp prec emax (Zdigits2 m + e) - e); simpl;
    [exact H0|now apply iter_pos_shr_1_nonneg|exact H0].
Qed.

Lemma binary_round_aux_not_nan sx mx ex lx :
  0 <= mx -> binary_round_aux prec emax sx mx ex lx <> S754_nan.
Proof.
  intros Hm. unfold binary_round_aux.
  pose proof (shr_fexp_nonneg mx ex lx Hm) as H1.
  destruct (shr_fexp prec emax mx ex lx) as [mrs' e']. simpl in H1.
  assert (H2 : 0 <= round_nearest_even (shr_m mrs') (loc_of_shr_record mrs')).
  { unfold round_nearest_even.
    destruct (loc_of_shr_record mrs') as [|[]]; try lia.
    destruct (Z.even (shr_m mrs')); lia. }
  pose proof (shr_fexp_nonneg _ e' loc_Exact H2) as H3.
  destruct (shr_fexp prec emax _ e' loc_Exact) as [mrs'' e'']. simpl in H3.
  destruct (shr_m mrs''); [discriminate| |lia].
  destruct (e'' <=? emax - prec); discriminate.
Qed.

(** Scaling by 100 makes a not-a-number of a not-a-number and of nothing
    else. *)
Lemma is_nan_times_100 x :
  PrimFloat.is_nan (x * 100)%float = PrimFloat.is_nan x.
Proof.
  rewrite !is_nan_Prim2SF, mul_spec.
  assert (H100 : exists m e, Prim2SF 100%float = S754_finite false m e)
    by (vm_compute; eauto).
  destruct H100 as (m100 & e100 & ->).
  destruct (Prim2SF x) as [sg|sg| |sg m e]; try reflexivity.
  unfold SF64mul, SFmul.
  pose proof (binary_round_aux_not_nan (xorb sg false)
                (Z.pos (m * m100)) (e + e100) loc_Exact) as Hn.
  destruct (binary_round_aux prec emax (xorb sg false)
              (Z.pos (m * m100)) (e + e100) loc_Exact);
    try reflexivity.
  now destruct Hn.
Qed.

(** *** The order of the floats that are numbers *)

Ltac compare_keys :=
  unfold key_lt, key_le, sf_key; simpl;
  repeat match goal with
    | |- context [(?a ?= ?b)%Z] => destruct (Z.compare_spec a b)
    | |- context [PosDef.Pos.compare_cont Eq ?a ?b] =>
        change (PosDef.Pos.compare_cont Eq a b) with (Pos.compare a b);
        destruct (Pos.compare_spec a b)
    end; simpl;
  split; intros; try discriminate; try reflexivity; try lia.

Lemma key_le_dec_aux a b : key_le a b \/ key_lt b a.
Proof. unfold key_le, key_lt. lia. Qed.

Lemma SFltb_key a b :
  a <> S754_nan -> b <> S754_nan ->
  (SFltb a b = true <-> key_lt (sf_key a) (sf_key b)).
Proof.
  intros Ha Hb. unfold SFltb.
  destruct a as [[]|[]| |[] ma ea]; try done;
    destruct b as [[]|[]| |[] mb eb]; try done; compare_keys.
Qed.

Lemma SFleb_key a b :
  a <> S754_nan -> b <> S754_nan ->
  (SFleb a b = true <-> key_le (sf_key a) (sf_key b)).
Proof.
  intros Ha Hb. unfold SFleb.
  destruct a as [[]|[]| |[] ma ea]; try done;
    destruct b as [[]|[]| |[] mb eb]; try done; compare_keys.
Qed.

Lemma is_nan_false x : PrimFloat.is_nan x = false <-> Prim2SF x <> S754_nan.
Proof.
  rewrite is_nan_Prim2SF. destruct (Prim2SF x); split; try done.
Qed.

Lemma leb_number x y :
  (x <=? y)%float = true ->
  PrimFloat.is_nan x = false /\ PrimFloat.is_nan y = false.
Proof.
  rewrite leb_spec, !is_nan_Prim2SF. unfold SFleb.
  destruct (Prim2SF x), (Prim2SF y); simpl; try discriminate; now split.
Qed.

Lemma ltb_number x y :
  (x <? y)%float = true ->
  PrimFloat.is_nan x = false /\ PrimFloat.is_nan y = false.
Proof.
  rewrite ltb_spec, !is_nan_Prim2SF. unfold SFltb.
  destruct (Prim2SF x), (Prim2SF y); simpl; try discriminate; now split.
Qed.

Lemma leb_key x y :
  PrimFloat.is_nan x = false -> PrimFloat.is_nan y = false ->
  ((x <=? y)%float = true <-> key_le (sf_key (Prim2SF x)) (sf_key (Prim2SF y))).
Proof.
  intros Hx Hy. rewrite leb_spec.
  apply SFleb_key; now apply is_nan_false.
Qed.

Lemma ltb_key x y :
  PrimFloat.is_nan x = false -> PrimFloat.is_nan y = false ->
  ((x <? y)%float = true <-> key_lt (sf_key (Prim2SF x)) (sf_key (Prim2SF y))).
Proof.
  intros Hx Hy. rewrite ltb_spec.
  apply SFltb_key; now apply is_nan_false.
Qed.

Lemma leb_refl x : PrimFloat.is_nan x = false -> (x <=? x)%float = true.
Proof.
  intros Hx. apply leb_key; [assumption..|]. unfold key_le. lia.
Qed.

Lemma not_leb_ltb x y :
  PrimFloat.is_nan x = false -> PrimFloat.is_nan y = false ->
  (x <=? y)%float = false -> (y <? x)%float = true.
Proof.
  intros Hx Hy Hle. apply ltb_key; [assumption..|].
  destruct (key_le_dec_aux (sf_key (Prim2SF x)) (sf_key (Prim2SF y))) as [H|H];
    [|exact H].
  apply (leb_key x y Hx Hy) in H. congruence.
Qed.

Lemma leb_ltb_trans x y z :
  (x <=? y)%float = true -> (y <? z)%float = true -> (x <? z)%float = true.
Proof.
  intros Hxy Hyz.
  destruct (leb_number _ _ Hxy) as [Hx Hy].
  destruct (ltb_number _ _ Hyz) as [_ Hz].
  apply (leb_key x y Hx Hy) in Hxy. apply (ltb_key y z Hy Hz) in Hyz.
  apply (ltb_key x z Hx Hz). unfold key_le, key_lt in *. lia.
Qed.

Lemma ltb_leb x y : (x <? y)%float = true -> (x <=? y)%float = true.
Proof.
  intros Hxy. destruct (ltb_number _ _ Hxy) as [Hx Hy].
  apply (ltb_key x y Hx Hy) in Hxy. apply (leb_key x y Hx Hy).
  unfold key_le, key_lt in *. lia.
Qed.

(** ** Properties of the AngryTweets benchmark *)

Lemma argmax_loop_spec rest :
  forall pre mp max_ind,
    pre !! max_ind = Some mp ->
    PrimFloat.is_nan mp = false ->
    (forall y, y ∈ pre -> (y <=? mp)%float = true) ->
    (forall j y, (j < max_ind)%nat -> pre !! j = Some y -> (y <? mp)%float = true) ->
    is_argmax (pre ++ rest) (argmax_loop mp max_ind (length pre) rest).
Proof.
  induction rest as [|x rest IH]; intros pre mp max_ind Hmax Hmp Hle Hlt.
  - simpl. rewrite app_nil_r. exists mp. split; [exact Hmax|]. split.
    + right. exact Hle.
    + intros j y Hj Hy. pose proof (Hlt j y Hj Hy) as Hyx.
      split; [exact (proj1 (ltb_number _ _ Hyx))|now right].
  - simpl. destruct (x <=? mp)%float eqn:Hx; simpl.
    + (* the maximum stays *)
      replace (pre ++ x :: rest) with ((pre ++ [x]) ++ rest)
        by now rewrite <- app_assoc.
      replace (S (length pre)) with (length (pre ++ [x]))
        by (rewrite length_app; simpl; lia).
      apply IH; try assumption.
      * apply lookup_app_l_Some. exact Hmax.
      * intros y Hy. apply elem_of_app in Hy as [Hy|Hy]; [now apply Hle|].
        apply list_elem_of_singleton in Hy. now subst y.
      * intros j y Hj Hy. apply (Hlt j y Hj).
        rewrite lookup_app_l in Hy; [exact Hy|].
        apply lookup_lt_Some in Hmax. lia.
    + destruct (PrimFloat.is_nan x) eqn:Hnan.
      * (* a not-a-number ends the loop *)
        exists x. split; [|split].
        -- rewrite lookup_app_r by lia. now rewrite Nat.sub_diag.
        -- now left.
        -- intros j y Hj Hy. rewrite lookup_app_l in Hy by exact Hj.
           split; [|now left].
           apply (leb_number y mp). apply Hle.
           now apply list_elem_of_lookup_2 in Hy.
      * (* a new maximum *)
        pose proof (not_leb_ltb x mp Hnan Hmp Hx) as Hmpx.
        replace (pre ++ x :: rest) with ((pre ++ [x]) ++ rest)
          by now rewrite <- app_assoc.
        replace (S (length pre)) with (length (pre ++ [x]))
          by (rewrite length_app; simpl; lia).
        apply IH; try assumption.
        -- rewrite lookup_app_r by lia. now rewrite Nat.sub_diag.
        -- intros y Hy. apply elem_of_app in Hy as [Hy|Hy].
           ++ apply ltb_leb. apply (leb_ltb_trans y mp x); [now apply Hle|exact Hmpx].
           ++ apply list_elem_of_singleton in Hy. subst y. now apply leb_refl.
        -- intros j y Hj Hy. rewrite lookup_app_l in Hy by exact Hj.
           apply (leb_ltb_trans y mp x); [|exact Hmpx].
           apply Hle. now apply list_elem_of_lookup_2 in Hy.
Qed.

Lemma argmax_spec row c : argmax row = Some c -> is_argmax row c.
Proof.
  destruct row as [|x rest]; [discriminate|]. simpl.
  destruct (PrimFloat.is_nan x) eqn:Hnan; intros [= <-].
  - exists x. split; [reflexivity|]. split; [now left|]. intros j y Hj. lia.
  - apply (argmax_loop_spec rest [x] x 0%nat); try done.
    + intros y Hy. apply list_elem_of_singleton in Hy. subst y. now apply leb_refl.
    + intros j y Hj. lia.
Qed.

Lemma argmax_last_axis_spec predictions :
  Forall (fun row => row <> []) predictions ->
  exists classes,
    argmax_last_axis predictions = Some classes /\
    Forall2 is_argmax predictions classes.
Proof.
  unfold argmax_last_axis. induction 1 as [|row predictions Hrow _ IH].
  - exists []. split; [reflexivity|constructor].
  - destruct IH as (classes & Hc & Hspec).
    destruct (argmax row) as [c|] eqn:E; [|now destruct row].
    exists (c :: classes). split.
    + simpl. rewrite E. simpl. rewrite Hc. reflexivity.
    + constructor; [now apply argmax_spec|exact Hspec].
Qed.

(** C9: on per-class scores with no empty row, the metric function hands
    to the metric the argmax class of each row, asks for the macro average,
    and returns the F1 value it gets under the single key [macro_f1]. *)
Theorem compute_metrics_argmax_then_macro_f1
    (_metric_compute : list nat -> list nat -> string -> gmap string float)
    predictions labels :
  Forall (fun row => row <> []) predictions ->
  exists classes,
    Forall2 is_argmax predictions classes /\
    AngryTweetsBenchmark._compute_metrics _metric_compute (predictions, labels)
    = match _metric_compute classes labels "macro" !! "f1" with
      | Some f1 => Returned {[ "macro_f1" := f1 ]}
      | None => Raised (KeyError "f1")
      end /\
    forall results,
      AngryTweetsBenchmark._compute_metrics _metric_compute (predictions, labels)
      = Returned results ->
      dom results = {[ "macro_f1" ]}.
Proof.
  intros Hrows.
  destruct (argmax_last_axis_spec predictions Hrows) as (classes & Hc & Hspec).
  exists classes. split; [exact Hspec|].
  unfold AngryTweetsBenchmark._compute_metrics. rewrite Hc. split; [reflexivity|].
  intros results.
  destruct (_metric_compute classes labels "macro" !! "f1"); [|discriminate].
  intros [= <-]. apply dom_singleton_L.
Qed.

(** C8: the report of the metrics.  When the standard error (of the training
    split, which is the one the code looks at) is not a number, the line
    logged has no [+-] part and gives the two means; when it is a number the
    line gives the mean and the standard error of both splits.  Every value
    in the line is the value that [_get_stats] gave, times 100. *)
Theorem log_metrics_line
    (_get_stats :
       string -> gmap string (list (gmap string float)) -> string -> float * float)
    metrics model_id log train_mean train_std_err test_mean test_std_err :
  _get_stats "train" metrics "macro_f1" = (train_mean, train_std_err) ->
  _get_stats "test" metrics "macro_f1" = (test_mean, test_std_err) ->
  (PrimFloat.is_nan train_std_err = true ->
   AngryTweetsBenchmark._log_metrics _get_stats metrics model_id log
   = (log ++
      ["Macro-average F1-scores on AngryTweets for " +:+ model_id +:+ ":" +:+
       newline +:+
       "  - Train: " +:+ format_2f (train_mean * 100)%float +:+
       newline +:+
       "  - Test: " +:+ format_2f (test_mean * 100)%float],
      Returned tt)) /\
  (PrimFloat.is_nan train_std_err = false ->
   AngryTweetsBenchmark._log_metrics _get_stats metrics model_id log
   = (log ++
      ["Mean macro-average F1-scores on AngryTweets for " +:+ model_id +:+ ":" +:+
       newline +:+
       "  - Train: " +:+ format_2f (train_mean * 100)%float +:+ " +- " +:+
       format_2f (train_std_err * 100)%float +:+
       newline +:+
       "  - Test: " +:+ format_2f (test_mean * 100)%float +:+ " +- " +:+
       format_2f (test_std_err * 100)%float],
      Returned tt)).
Proof.
  intros Htrain Htest.
  unfold AngryTweetsBenchmark._log_metrics. rewrite Htrain, Htest.
  rewrite is_nan_times_100.
  split; intros ->; reflexivity.
Qed.

(** ** The theorems on the sample objects *)

Lemma align_vocab_conflict_raises_witness :
  Config.vocab_size (Model.config Examples.small_model) = Some 5 /\
  Tokenizer.vocab_size Examples.bert_tokenizer = Some 8%N /\
  5 < Z.of_N 8 /\
  snd (align Examples.zero_init Examples.small_model Examples.bert_tokenizer true)
  = Raised (InvalidBenchmark vocab_error) /\
  aligned_model
    (align Examples.zero_init Examples.small_model Examples.bert_tokenizer true)
  = Examples.small_model.
Proof.
  split; [reflexivity|]. split; [reflexivity|]. split; [lia|].
  apply (align_vocab_conflict_raises Examples.zero_init Examples.small_model
           Examples.bert_tokenizer 5 8%N); [reflexivity|reflexivity|lia].
Defined.

Lemma align_vocab_conflict_resizes_witness :
  Config.vocab_size (Model.config Examples.small_model) = Some 5 /\
  Tokenizer.vocab_size Examples.bert_tokenizer = Some 8%N /\
  5 < Z.of_N 8 /\
  Z.of_nat
    (length
       (Model.input_embeddings
          (aligned_model
             (align Examples.zero_init Examples.small_model
                Examples.bert_tokenizer false))))
  = Z.of_N 8 + 1 /\
  Config.vocab_size
    (Model.config
       (aligned_model
          (align Examples.zero_init Examples.small_model
             Examples.bert_tokenizer false)))
  = Some (Z.of_N 8 + 1).
Proof.
  split; [reflexivity|]. split; [reflexivity|]. split; [lia|].
  apply (align_vocab_conflict_resizes Examples.zero_init Examples.small_model
           Examples.bert_tokenizer 5 8%N); [reflexivity|reflexivity|lia].
Defined.

Lemma align_no_padding_candidate_raises_witness :
  Tokenizer.pad_token Examples.bare_tokenizer = None /\
  Tokenizer.eos_token Examples.bare_tokenizer = None /\
  Tokenizer.sep_token Examples.bare_tokenizer = None /\
  (exists msg,
     snd (align Examples.zero_init Examples.small_model
            Examples.bare_tokenizer false)
     = Raised (InvalidBenchmark msg)) /\
  Tokenizer.pad_token
    (aligned_tokenizer
       (align Examples.zero_init Examples.small_model
          Examples.bare_tokenizer false))
  = None.
Proof.
  split; [reflexivity|]. split; [reflexivity|]. split; [reflexivity|].
  apply (align_no_padding_candidate_raises Examples.zero_init
           Examples.small_model Examples.bare_tokenizer false); reflexivity.
Defined.

Lemma align_pads_with_eos_or_sep_witness :
  Tokenizer.pad_token Examples.gpt_tokenizer = None /\
  Tokenizer.eos_token Examples.gpt_tokenizer = Some "<eos>" /\
  Tokenizer.padding_side
    (aligned_tokenizer
       (align Examples.zero_init Examples.gpt_model Examples.gpt_tokenizer true))
  = "left" /\
  Tokenizer.pad_token
    (aligned_tokenizer
       (align Examples.zero_init Examples.gpt_model Examples.gpt_tokenizer true))
  = Some "<eos>".
Proof.
  split; [reflexivity|]. split; [reflexivity|].
  apply (proj1 (align_pads_with_eos_or_sep Examples.zero_init Examples.gpt_model
                  Examples.gpt_tokenizer true eq_refl) "<eos>" eq_refl).
  reflexivity.
Defined.

Lemma align_max_length_ignores_late_pad_token_witness :
  Tokenizer.pad_token_id Examples.gpt_tokenizer = None /\
  exists v,
    Tokenizer.model_max_length
      (aligned_tokenizer
         (align Examples.zero_init Examples.gpt_model Examples.gpt_tokenizer false))
    = Some v /\
    least_or_default
      (fun s => declared_signal Examples.gpt_tokenizer s \/
                input_size_signal Examples.gpt_tokenizer s)
      512 v.
Proof.
  split; [reflexivity|].
  apply (align_max_length_ignores_late_pad_token Examples.zero_init
           Examples.gpt_model Examples.gpt_tokenizer false).
  reflexivity.
Defined.

Lemma setup_expands_single_row_table_witness :
  unique_names (Model.module Examples.small_model) = true /\
  token_type_embeddings Examples.small_model
  = Some (Examples.token_type_table Examples.one_row) /\
  (exists model' tte' row',
     setup_model_for_question_answering Examples.zero_init Examples.small_model
     = (model', Returned tt) /\
     token_type_embeddings model' = Some tte' /\
     weight tte' = Some [[0.5; 0.25]%float; row'] /\
     length row' = length [0.5; 0.25]%float /\
     Config.type_vocab_size (Model.config model') = Some 2) /\
  token_type_embeddings Examples.gpt_model = None /\
  setup_model_for_question_answering Examples.zero_init Examples.gpt_model
  = (Examples.gpt_model, Returned tt).
Proof.
  split; [reflexivity|]. split; [reflexivity|]. split; [|split; [reflexivity|]].
  - apply (proj1 (setup_expands_single_row_table Examples.zero_init
                    Examples.small_model)
             (Examples.token_type_table Examples.one_row)
             [0.5; 0.25]%float); reflexivity.
  - apply (proj2 (setup_expands_single_row_table Examples.zero_init
                    Examples.gpt_model)).
    reflexivity.
Defined.

Lemma setup_keeps_expanded_table_witness :
  unique_names (Model.module Examples.expanded_model) = true /\
  token_type_embeddings Examples.expanded_model
  = Some (Examples.token_type_table Examples.two_rows) /\
  2 <= shape0 Examples.two_rows /\
  exists model',
    setup_model_for_question_answering Examples.zero_init Examples.expanded_model
    = (model', Returned tt) /\
    Model.module model' = Model.module Examples.expanded_model /\
    token_type_embeddings model'
    = Some (Examples.token_type_table Examples.two_rows).
Proof.
  split; [reflexivity|]. split; [reflexivity|]. split; [vm_compute; discriminate|].
  apply (setup_keeps_expanded_table Examples.zero_init Examples.expanded_model
           (Examples.token_type_table Examples.two_rows) Examples.two_rows);
    [reflexivity|reflexivity|reflexivity|vm_compute; discriminate].
Defined.

Lemma log_metrics_line_witness :
  PrimFloat.is_nan nan = true /\
  AngryTweetsBenchmark._log_metrics Examples.single_run_stats ∅ "bert" []
  = (["Macro-average F1-scores on AngryTweets for bert:" +:+ newline +:+
      "  - Train: 75.00" +:+ newline +:+
      "  - Test: 50.00"],
     Returned tt) /\
  PrimFloat.is_nan 0.0078125%float = false /\
  AngryTweetsBenchmark._log_metrics Examples.several_runs_stats ∅ "bert" []
  = (["Mean macro-average F1-scores on AngryTweets for bert:" +:+ newline +:+
      "  - Train: 75.00 +- 0.78" +:+ newline +:+
      "  - Test: 50.00 +- 1.56"],
     Returned tt).
Proof.
  split; [reflexivity|]. split; [|split; [reflexivity|]].
  - apply (proj1 (log_metrics_line Examples.single_run_stats ∅ "bert" []
                    0.75%float nan 0.5%float nan eq_refl eq_refl)).
    reflexivity.
  - apply (proj2 (log_metrics_line Examples.several_runs_stats ∅ "bert" []
                    0.75%float 0.0078125%float 0.5%float 0.015625%float
                    eq_refl eq_refl)).
    reflexivity.
Defined.

Lemma rows_not_empty_stub :
  Forall (fun row : list float => row <> []) Examples.stub_predictions.
Proof. repeat constructor; discriminate. Defined.

Lemma compute_metrics_argmax_then_macro_f1_witness :
  Forall (fun row : list float => row <> []) Examples.stub_predictions /\
  exists classes,
    Forall2 is_argmax Examples.stub_predictions classes /\
    AngryTweetsBenchmark._compute_metrics Examples.macro_f1_metric
      (Examples.stub_predictions, Examples.balanced_labels)
    = match Examples.macro_f1_metric classes Examples.balanced_labels "macro"
            !! "f1" with
      | Some f1 => Returned {[ "macro_f1" := f1 ]}
      | None => Raised (KeyError "f1")
      end /\
    forall results,
      AngryTweetsBenchmark._compute_metrics Examples.macro_f1_metric
        (Examples.stub_predictions, Examples.balanced_labels)
      = Returned results ->
      dom results = {[ "macro_f1" ]}.
Proof.
  split; [exact rows_not_empty_stub|].
  apply (compute_metrics_argmax_then_macro_f1 Examples.macro_f1_metric
           Examples.stub_predictions Examples.balanced_labels).
  exact rows_not_empty_stub.
Defined.

(** The pad token that the alignment takes from the EOS token has id 7; the
    model has 1024 positions; the maximum length is 1024 all the same, not
    1024 - 7 - 1. *)
Example gpt_max_length_without_positions :
  let r := align Examples.zero_init Examples.gpt_model Examples.gpt_tokenizer false in
  Tokenizer.pad_token_id (aligned_tokenizer r) = Some 7 /\
  Config.max_position_embeddings (Model.config (aligned_model r)) = Some 1024 /\
  Tokenizer.model_max_length (aligned_tokenizer r) = Some 1024.
Proof. vm_compute. repeat split. Qed.

(** With a pad token of id 0 the positions count: 512 against 1024 - 0 - 1. *)
Example bert_max_length :
  Tokenizer.model_max_length
    (aligned_tokenizer
       (align Examples.zero_init Examples.small_model Examples.bert_tokenizer false))
  = Some 512.
Proof. reflexivity. Qed.

(** No signal at all: the default. *)
Example bare_max_length :
  Tokenizer.model_max_length
    (aligned_tokenizer
       (align Examples.zero_init Examples.small_model Examples.bare_tokenizer false))
  = Some 512 /\
  all_max_lengths Examples.small_model Examples.bare_tokenizer = [].
Proof. split; reflexivity. Qed.

(** The SEP token serves when there is no EOS token. *)
Example sep_becomes_pad :
  let r := align Examples.zero_init Examples.gpt_model Examples.sep_tokenizer false in
  snd r = Returned tt /\
  Tokenizer.pad_token (aligned_tokenizer r) = Some "[SEP]" /\
  Tokenizer.padding_side (aligned_tokenizer r) = "left" /\
  Config.pad_token_id (Model.config (aligned_model r)) = Some 3.
Proof. vm_compute. repeat split. Qed.

(** The set-up on the BERT-like tree: the walk gives the names that lead to
    the table, and the table gets its second row. *)
Example bert_attribute_list :
  (get_children_of_module "model" (Model.module Examples.small_model)
     ≫= attribute_list_of)
  = Some ["bert"; "embeddings"; "token_type_embeddings"].
Proof. reflexivity. Qed.

Example bert_setup :
  token_type_embeddings
    (fst (setup_model_for_question_answering Examples.zero_init Examples.small_model))
  = Some (MkModule (Some [[0.5; 0.25]; [0; 0]]%float) (Some 2) []).
Proof. reflexivity. Qed.

(** Two documents of each of two classes and a model that always answers
    with the first class: a macro-averaged F1 of a third. *)
Example stub_macro_f1 :
  match AngryTweetsBenchmark._compute_metrics Examples.macro_f1_metric
          (Examples.stub_predictions, Examples.balanced_labels) with
  | Returned results =>
      format_2f (default 0 (results !! "macro_f1") * 100)%float
  | _ => ""
  end = "33.33".
Proof. vm_compute. reflexivity. Qed.

Example format_2f_samples :
  format_2f 50.125%float = "50.12" /\
  format_2f 0.375%float = "0.38" /\
  format_2f (-0.001953125)%float = "-0.00" /\
  format_2f nan = "nan" /\
  format_2f neg_infinity = "-inf".
Proof. vm_compute. repeat split. Qed.

Example argmax_samples :
  argmax [1; 3; 2; 3]%float = Some 1%nat /\
  argmax [1; nan; 5]%float = Some 1%nat /\
  argmax [] = None.
Proof. vm_compute. repeat split. Qed.

(** ** More on the alignment *)

(** The cases of a run of the alignment. *)
Ltac align_cases model tokenizer raise_errors :=
  run_align;
  destruct (all_max_lengths model tokenizer); simpl;
  (destruct (Config.vocab_size (Model.config model)) as [?mv|] eqn:?Hmv;
   [destruct (Tokenizer.vocab_size tokenizer) as [?tv|] eqn:?Htv;
    [destruct (_ <? Z.of_N _) eqn:?Hlt; [destruct raise_errors|]|]|]);
  simpl;
  try (destruct (Tokenizer.pad_token tokenizer) as [?pad|] eqn:?Hpad;
       [|destruct (Tokenizer.eos_token tokenizer) as [?eos|] eqn:?Heos;
         [|destruct (Tokenizer.sep_token tokenizer) as [?sep|] eqn:?Hsep]]);
  simpl.


Lemma align_returned init model tokenizer raise_errors :
  let r := align init model tokenizer raise_errors in
  snd r = Returned tt ->
  (exists pad, Tokenizer.pad_token (aligned_tokenizer r) = Some pad) /\
  vocab_conflict (aligned_model r) (aligned_tokenizer r) = false /\
  (forall pad, Tokenizer.pad_token tokenizer = Some pad ->
     Tokenizer.pad_token (aligned_tokenizer r) = Some pad).
Proof.
  unfold vocab_conflict.
  align_cases model tokenizer raise_errors; intros Hret; try discriminate Hret;
    rewrite ?Hmv, ?Htv, ?Hlt;
    (split; [eauto|split; [|congruence]]);
    try reflexivity; apply Z.ltb_ge; lia.
Qed.

(** When the alignment returns, the pair it returns is aligned: the
    tokenizer has a pad token and a maximum length, and the vocabulary of
    the model is not smaller than that of the tokenizer. *)
Theorem align_returns_aligned_pair init model tokenizer raise_errors :
  let r := align init model tokenizer raise_errors in
  snd r = Returned tt ->
  (exists pad, Tokenizer.pad_token (aligned_tokenizer r) = Some pad) /\
  (exists v, Tokenizer.model_max_length (aligned_tokenizer r) = Some v) /\
  (forall mv tv,
     Config.vocab_size (Model.config (aligned_model r)) = Some mv ->
     Tokenizer.vocab_size (aligned_tokenizer r) = Some tv ->
     Z.of_N tv <= mv).
Proof.
  intros r Hret. destruct (align_returned init model tokenizer raise_errors Hret)
    as (Hpad & Hvocab & _).
  split; [exact Hpad|]. split.
  - eexists. apply align_model_max_length.
  - intros mv tv Hmv Htv. fold r in Hvocab. unfold vocab_conflict in Hvocab.
    rewrite Hmv, Htv in Hvocab. now apply Z.ltb_ge.
Qed.

Lemma align_compatible_pair init model tokenizer raise_errors pad :
  Tokenizer.pad_token tokenizer = Some pad ->
  vocab_conflict model tokenizer = false ->
  align init model tokenizer raise_errors
  = ((model,
      Tokenizer.set_model_max_length (effective_max_length model tokenizer)
        tokenizer),
     Returned tt).
Proof.
  intros Hp Hc. unfold vocab_conflict in Hc. unfold effective_max_length.
  align_cases model tokenizer raise_errors;
    rewrite ?Hmv, ?Htv in Hc; try congruence; destruct model; reflexivity.
Qed.

(** On a pair that needs no repair (the tokenizer has a pad token, the
    vocabulary of the model is not the smaller one) the alignment returns,
    whatever the flag, and changes nothing but the maximum length of the
    tokenizer: the model, the pad token and the padding side stay. *)
Theorem align_only_sets_max_length init model tokenizer raise_errors pad :
  Tokenizer.pad_token tokenizer = Some pad ->
  vocab_conflict model tokenizer = false ->
  let r := align init model tokenizer raise_errors in
  snd r = Returned tt /\
  aligned_model r = model /\
  aligned_tokenizer r
  = Tokenizer.set_model_max_length (effective_max_length model tokenizer)
      tokenizer.
Proof.
  intros Hp Hc r. unfold r.
  rewrite (align_compatible_pair init model tokenizer raise_errors pad Hp Hc).
  repeat split.
Qed.

(** Without a conflict of vocabularies the embedding table and the
    vocabulary size of the model are not touched, whatever the flag and
    however the call ends. *)
Theorem align_no_conflict_no_resize init model tokenizer raise_errors :
  vocab_conflict model tokenizer = false ->
  let r := align init model tokenizer raise_errors in
  Model.input_embeddings (aligned_model r) = Model.input_embeddings model /\
  Config.vocab_size (Model.config (aligned_model r))
  = Config.vocab_size (Model.config model).
Proof.
  intros Hc. unfold vocab_conflict in Hc.
  align_cases model tokenizer raise_errors;
    rewrite ?Hmv, ?Htv in Hc; try congruence; split; congruence.
Qed.

(** The error of the vocabulary check comes after the maximum length has
    been written: the tokenizer the caller is left with has the new maximum
    length and is otherwise the one that was passed. *)
Theorem align_vocab_error_keeps_new_max_length init model tokenizer mv tv :
  Config.vocab_size (Model.config model) = Some mv ->
  Tokenizer.vocab_size tokenizer = Some tv ->
  mv < Z.of_N tv ->
  aligned_tokenizer (align init model tokenizer true)
  = Tokenizer.set_model_max_length (effective_max_length model tokenizer)
      tokenizer.
Proof.
  intros Hm Ht Hlt. apply Z.ltb_lt in Hlt. unfold effective_max_length.
  run_align.
  destruct (all_max_lengths model tokenizer); simpl;
    rewrite Hm, Ht, Hlt; reflexivity.
Qed.

(** When the alignment returns after it took the pad token from the EOS or
    SEP token, the pad token id of the configuration of the model is the
    one of the tokenizer, which is then not None. *)
Theorem align_config_pad_token_id init model tokenizer raise_errors :
  Tokenizer.pad_token tokenizer = None ->
  let r := align init model tokenizer raise_errors in
  snd r = Returned tt ->
  Config.pad_token_id (Model.config (aligned_model r))
  = Tokenizer.pad_token_id (aligned_tokenizer r) /\
  Tokenizer.pad_token_id (aligned_tokenizer r) <> None.
Proof.
  intros Hp. unfold Tokenizer.pad_token_id.
  align_cases model tokenizer raise_errors; intros Hret;
    try discriminate Hret; try congruence; split; (reflexivity || discriminate).
Qed.

(** With a pad token in the tokenizer the pad token id of the configuration
    is left as it is, equal to that of the tokenizer or not. *)
Theorem align_keeps_config_pad_token_id init model tokenizer raise_errors pad :
  Tokenizer.pad_token tokenizer = Some pad ->
  let r := align init model tokenizer raise_errors in
  Config.pad_token_id (Model.config (aligned_model r))
  = Config.pad_token_id (Model.config model) /\
  Tokenizer.pad_token (aligned_tokenizer r) = Some pad /\
  Tokenizer.padding_side (aligned_tokenizer r) = Tokenizer.padding_side tokenizer.
Proof.
  intros Hp.
  align_cases model tokenizer raise_errors; try congruence; repeat split;
    congruence.
Qed.

Lemma align_frame init model tokenizer raise_errors :
  let r := align init model tokenizer raise_errors in
  Config.max_position_embeddings (Model.config (aligned_model r))
  = Config.max_position_embeddings (Model.config model) /\
  Tokenizer.max_model_input_sizes (aligned_tokenizer r)
  = Tokenizer.max_model_input_sizes tokenizer /\
  Tokenizer.convert_tokens_to_ids (aligned_tokenizer r)
  = Tokenizer.convert_tokens_to_ids tokenizer.
Proof.
  align_cases model tokenizer raise_errors; repeat split.
Qed.

(** The length that the alignment stored is a signal for the next one. *)
Lemma stored_length_is_signal init model tokenizer raise_errors :
  let r := align init model tokenizer raise_errors in
  snd r = Returned tt ->
  signal (aligned_model r) (aligned_tokenizer r)
    (effective_max_length model tokenizer).
Proof.
  intros r Hret.
  pose proof (align_model_max_length init model tokenizer raise_errors) as Hv.
  destruct (align_frame init model tokenizer raise_errors) as (Hmpe & Hsizes & Hids).
  destruct (align_returned init model tokenizer raise_errors Hret)
    as (_ & _ & Hkeep).
  fold r in Hv, Hmpe, Hsizes, Hids, Hkeep.
  destruct (effective_max_length_least model tokenizer)
    as [[Hsig _]|[_ Hdef]].
  - destruct Hsig as [[Hd Hlt]|[(p & i & Hp & Hi & Hs)|(sizes & arch & Hs & Ha)]].
    + left. split; [exact Hv|exact Hlt].
    + right; left. exists p, i. split; [congruence|]. split; [|exact Hs].
      unfold Tokenizer.pad_token_id in *.
      destruct (Tokenizer.pad_token tokenizer) as [pad|] eqn:Hpad; [|discriminate].
      rewrite (Hkeep pad eq_refl), Hids. exact Hi.
    + right; right. exists sizes, arch. split; [congruence|exact Ha].
  - left. split; [exact Hv|]. rewrite Hdef. lia.
Qed.

(** With a pad token from the start, the next alignment sees no signal
    below the length that was stored. *)
Lemma later_signals_not_below init model tokenizer raise_errors pad s :
  Tokenizer.pad_token tokenizer = Some pad ->
  let r := align init model tokenizer raise_errors in
  snd r = Returned tt ->
  signal (aligned_model r) (aligned_tokenizer r) s ->
  effective_max_length model tokenizer <= s.
Proof.
  intros Hpad r Hret Hsig.
  pose proof (align_model_max_length init model tokenizer raise_errors) as Hv.
  destruct (align_frame init model tokenizer raise_errors) as (Hmpe & Hsizes & Hids).
  destruct (align_returned init model tokenizer raise_errors Hret)
    as (_ & _ & Hkeep).
  fold r in Hv, Hmpe, Hsizes, Hids, Hkeep.
  assert (Hold : signal model tokenizer s -> effective_max_length model tokenizer <= s).
  { intros Hs. destruct (effective_max_length_least model tokenizer)
      as [[_ Hle]|[Hno _]]; [now apply Hle|now destruct (Hno s)]. }
  destruct Hsig as [[Hd _]|[(p & i & Hp & Hi & Hs)|(sizes & arch & Hs & Ha)]].
  - rewrite Hv in Hd. injection Hd as <-. lia.
  - apply Hold. right; left. exists p, i. split; [congruence|]. split; [|exact Hs].
    unfold Tokenizer.pad_token_id in *.
    rewrite (Hkeep pad Hpad), Hids in Hi. now rewrite Hpad.
  - apply Hold. right; right. exists sizes, arch. split; [congruence|exact Ha].
Qed.

(** Aligning the pair that an alignment returned: the second call returns
    too, whatever its flag, and leaves the model alone; the maximum length
    of the tokenizer can only go down, and stays when the tokenizer had its
    pad token before the first call. *)
Theorem align_again init init' model tokenizer raise_errors raise_errors' :
  let r := align init model tokenizer raise_errors in
  snd r = Returned tt ->
  let r' := align init' (aligned_model r) (aligned_tokenizer r) raise_errors' in
  snd r' = Returned tt /\
  aligned_model r' = aligned_model r /\
  exists v v',
    Tokenizer.model_max_length (aligned_tokenizer r) = Some v /\
    aligned_tokenizer r' = Tokenizer.set_model_max_length v' (aligned_tokenizer r) /\
    v' <= v /\
    (Tokenizer.pad_token tokenizer <> None -> v' = v).
Proof.
  intros r Hret r'.
  destruct (align_returned init model tokenizer raise_errors Hret)
    as ([pad Hpad] & Hvocab & _).
  fold r in Hpad, Hvocab. unfold r'.
  rewrite (align_compatible_pair init' _ _ raise_errors' pad Hpad Hvocab).
  split; [reflexivity|]. split; [reflexivity|].
  exists (effective_max_length model tokenizer),
         (effective_max_length (aligned_model r) (aligned_tokenizer r)).
  split; [apply align_model_max_length|]. split; [reflexivity|].
  pose proof (stored_length_is_signal init model tokenizer raise_errors Hret) as Hsig.
  fold r in Hsig.
  destruct (effective_max_length_least (aligned_model r) (aligned_tokenizer r))
    as [[Hsig' Hle]|[Hno _]]; [|now destruct (Hno _ Hsig)].
  split; [now apply Hle|].
  intros Hsome. destruct (Tokenizer.pad_token tokenizer) as [pad0|] eqn:Hpad0;
    [|now destruct Hsome].
  pose proof (later_signals_not_below init model tokenizer raise_errors pad0 _
                Hpad0 Hret Hsig') as Hge.
  specialize (Hle _ Hsig). lia.
Qed.

(** ** More on the module-tree functions *)






Lemma dict_set_walk_ends k v d :
  walk_ends v -> Forall (fun p => walk_ends p.2) d ->
  Forall (fun p => walk_ends p.2) (dict_set k v d).
Proof.
  intros Hv. induction 1 as [|[k' v'] d Hp Hd IH]; simpl.
  - constructor; [exact Hv|constructor].
  - destruct (String.eqb k k'); constructor; assumption.
Qed.

Lemma collect_children_walk_ends l :
  Forall (fun p => forall name c,
            get_children_of_module name p.2 = Some c ->
            truthy (Some c) = true -> walk_ends c) l ->
  forall acc,
    Forall (fun p => walk_ends p.2) acc ->
    Forall (fun p => walk_ends p.2) (collect_children l acc).
Proof.
  induction 1 as [|[subname submodule] l Hp _ IH]; intros acc Hacc;
    [exact Hacc|].
  simpl. cbn [snd] in Hp. apply IH.
  destruct (get_children_of_module subname submodule) as [c|] eqn:E;
    [|exact Hacc].
  destruct (truthy (Some c)) eqn:Ht; [|exact Hacc].
  apply dict_set_walk_ends; [|exact Hacc]. now apply (Hp subname).
Qed.

Lemma get_children_of_module_walk_ends module :
  forall name c,
    get_children_of_module name module = Some c ->
    truthy (Some c) = true -> walk_ends c.
Proof.
  induction module as [w n cs IH] using Module_tree_ind.
  intros name c. rewrite get_children_of_module_eq. destruct cs as [|p cs'].
  - destruct (String.eqb name token_type_embeddings_name); [|discriminate].
    intros [= <-] _. split; [reflexivity|now exists []].
  - generalize (collect_children_walk_ends (p :: cs') IH [] (List.Forall_nil _)).
    generalize (collect_children (p :: cs') []). intros d Hall [= <-] Ht.
    split; [exact Ht|].
    destruct d as [|[k v] rest]; [discriminate Ht|].
    apply Forall_cons in Hall as [[_ [l Hl]] _]. cbn [snd] in Hl.
    exists (k :: l). simpl. now rewrite Hl.
Qed.

(** The [while] loop of the set-up comes to an end on every model: the call
    returns, or it raises an [AttributeError]. *)
Theorem setup_never_hangs rand model :
  snd (setup_model_for_question_answering rand model) = Returned tt \/
  exists attribute,
    snd (setup_model_for_question_answering rand model)
    = Raised (AttributeError attribute).
Proof.
  unfold setup_model_for_question_answering, py_bind, py_get.
  destruct (get_children_of_module "model" (Model.module model)) as [c|] eqn:E;
    [|now left].
  destruct (truthy (Some c)) eqn:Ht; [|now left].
  destruct (get_children_of_module_walk_ends _ _ _ E Ht) as [_ [l Hl]].
  destruct c as [m|d]; [right; now eexists|]. rewrite Hl.
  destruct (getattr_chain (Model.module model) l) as [a|tte];
    [right; now eexists|].
  destruct (weight tte) as [w|]; [|right; now eexists].
  left. unfold py_when, py_modify, py_ret. now destruct (shape0 w =? 1).
Qed.

Lemma find_path_last module :
  forall name path found,
    find_token_type_embeddings name module = Some (path, found) ->
    last (name :: path) = Some token_type_embeddings_name.
Proof.
  induction module as [w n cs IH] using Module_tree_ind.
  intros name path found.
  rewrite find_token_type_embeddings_eq. destruct cs as [|p cs'].
  - destruct (String.eqb_spec name token_type_embeddings_name) as [->|];
      [|discriminate].
    now intros [= <- <-].
  - intros Hfind. apply find_in_children_some in Hfind
      as (l1 & sn & sm & l2 & path' & Hl & -> & Hsm & _).
    rewrite Hl in IH.
    apply Forall_app in IH as [_ IH]. apply Forall_cons in IH as [IH _].
    exact (IH sn _ _ Hsm).
Qed.

(** When [get_children_of_module] finds something in a model, the walk of
    lines 59-68 gives a list of names that ends with
    [token_type_embeddings], and the chain of [getattr] along it succeeds
    and reaches a module with no children. *)
Theorem walk_reaches_token_type_embeddings module c :
  unique_names module = true ->
  get_children_of_module "model" module = Some c ->
  truthy (Some c) = true ->
  exists attribute_list found,
    attribute_list_of c = Some attribute_list /\
    getattr_chain module attribute_list = inr found /\
    last attribute_list = Some token_type_embeddings_name /\
    named_children found = [].
Proof.
  intros Huniq Hc Ht.
  destruct (find_token_type_embeddings "model" module) as [[path found]|] eqn:E.
  - destruct (get_children_of_module_some module "model" path found Huniq E)
      as (c' & Hc' & _ & Hattr).
    rewrite Hc in Hc'. injection Hc' as <-.
    exists path, found. split; [exact Hattr|]. split; [|split].
    + exact (getattr_chain_find module "model" path found Huniq E).
    + pose proof (find_path_last module "model" path found E) as Hlast.
      destruct path as [|a path']; [discriminate Hlast|exact Hlast].
    + exact (find_token_type_embeddings_leaf module "model" path found E).
  - pose proof (get_children_of_module_none module "model" E) as Hf.
    rewrite Hc in Hf. congruence.
Qed.

Lemma setup_weightless rand model path found :
  unique_names (Model.module model) = true ->
  find_token_type_embeddings "model" (Model.module model) = Some (path, found) ->
  weight found = None ->
  setup_model_for_question_answering rand model
  = (model, Raised (AttributeError "weight")).
Proof.
  intros Huniq Hfind Hw.
  destruct (get_children_of_model_dict _ _ _ Huniq Hfind)
    as (d & Hc & Htrue & Hattr).
  unfold setup_model_for_question_answering, py_bind, py_get.
  rewrite Hc, Htrue, Hattr, (getattr_chain_find _ _ _ _ Huniq Hfind), Hw.
  reflexivity.
Qed.


Lemma shape0_expanded rand (w : Tensor) :
  shape0 (cat0 w (rand_like rand w)) = 2 * shape0 w.
Proof.
  unfold shape0, cat0, rand_like. rewrite length_app, length_imap. lia.
Qed.

(** The set-up is idempotent: on the model that a first call returned, a
    second call returns the very same model. *)
Theorem setup_idempotent rand rand' model model' :
  unique_names (Model.module model) = true ->
  setup_model_for_question_answering rand model = (model', Returned tt) ->
  setup_model_for_question_answering rand' model' = (model', Returned tt).
Proof.
  intros Huniq Hrun.
  destruct (find_token_type_embeddings "model" (Model.module model))
    as [[path found]|] eqn:Hfind.
  - destruct (weight found) as [w|] eqn:Hw.
    + rewrite (setup_with_embeddings rand model path found w Huniq Hfind Hw) in Hrun.
      injection Hrun as <-.
      destruct (shape0 w =? 1) eqn:Hone.
      * set (f := expand_token_type_embeddings rand w).
        pose proof (find_token_type_embeddings_leaf _ _ _ _ Hfind) as Hleaf.
        assert (Hfind' : find_token_type_embeddings "model"
                           (mutate_at path f (Model.module model))
                         = Some (path, f found))
          by (apply find_token_type_embeddings_mutate; assumption).
        assert (Huniq' : unique_names (mutate_at path f (Model.module model)) = true).
        { apply (unique_names_mutate f _ "model" path found); try assumption.
          unfold f, expand_token_type_embeddings. rewrite Hleaf. reflexivity. }
        rewrite (setup_with_embeddings rand'
                   (Model.mk (Config.set_type_vocab_size 2 (Model.config model))
                      (Model.input_embeddings model)
                      (mutate_at path f (Model.module model)))
                   path (f found) (cat0 w (rand_like rand w))
                   Huniq' Hfind' eq_refl).
        rewrite shape0_expanded. apply Z.eqb_eq in Hone.
        replace (2 * shape0 w =? 1) with false by (symmetry; apply Z.eqb_neq; lia).
        reflexivity.
      * rewrite (setup_with_embeddings rand'
                   (Model.mk (Config.set_type_vocab_size 2 (Model.config model))
                      (Model.input_embeddings model) (Model.module model))
                   path found w Huniq Hfind Hw).
        rewrite Hone. reflexivity.
    + rewrite (setup_weightless rand model path found Huniq Hfind Hw) in Hrun.
      discriminate Hrun.
  - rewrite (setup_without_embeddings rand model Hfind) in Hrun.
    injection Hrun as <-. exact (setup_without_embeddings rand' model Hfind).
Qed.





(** Whenever the set-up finds token-type embeddings with a weight it
    returns and sets the type vocabulary size to 2, whatever the number of
    rows of the table; when that number is not 1 (none, or more than two,
    say) the module tree is not changed. *)
Theorem setup_sets_type_vocab_size rand model tte w :
  unique_names (Model.module model) = true ->
  token_type_embeddings model = Some tte ->
  weight tte = Some w ->
  let r := setup_model_for_question_answering rand model in
  snd r = Returned tt /\
  Config.type_vocab_size (Model.config (fst r)) = Some 2 /\
  (shape0 w <> 1 -> Model.module (fst r) = Model.module model).
Proof.
  intros Huniq Htte Hw.
  apply token_type_embeddings_find in Htte as [path Hfind].
  cbv zeta. rewrite (setup_with_embeddings rand model path tte w Huniq Hfind Hw).
  repeat split. intros Hne. apply Z.eqb_neq in Hne.
  cbn [fst Model.module]. now rewrite Hne.
Qed.

(** ** More on the AngryTweets benchmark *)

Lemma leb_ltb_absurd x y :
  (x <=? y)%float = true -> (y <? x)%float = true -> False.
Proof.
  intros Hxy Hyx. destruct (leb_number _ _ Hxy) as [Hx Hy].
  apply (leb_key x y Hx Hy) in Hxy. apply (ltb_key y x Hy Hx) in Hyx.
  unfold key_le, key_lt in *. lia.
Qed.

Lemma is_argmax_not_before row c c' :
  is_argmax row c -> is_argmax row c' -> ~ (c < c')%nat.
Proof.
  intros (x & Hx & Hmax & _) (x' & Hx' & _ & Hbefore) Hlt.
  destruct (Hbefore c x Hlt Hx) as [Hnum Hbelow].
  destruct Hmax as [Hnan|Hmax]; [congruence|].
  assert (Hle : (x' <=? x)%float = true)
    by (apply Hmax; now apply list_elem_of_lookup_2 in Hx').
  destruct Hbelow as [Hnan'|Hlt'].
  - destruct (leb_number _ _ Hle). congruence.
  - exact (leb_ltb_absurd _ _ Hle Hlt').
Qed.

(** The argmax of a row is the one class that [is_argmax] describes: the
    place of the first not-a-number score or, without one, the first place
    of the greatest score. *)
Theorem argmax_iff row c : argmax row = Some c <-> is_argmax row c.
Proof.
  split; [apply argmax_spec|].
  intros Hc. destruct (argmax row) as [c0|] eqn:E.
  - pose proof (argmax_spec row c0 E) as Hc0.
    pose proof (is_argmax_not_before row c c0 Hc Hc0).
    pose proof (is_argmax_not_before row c0 c Hc0 Hc).
    f_equal. lia.
  - destruct row; [|discriminate E].
    destruct Hc as (x & Hx & _). discriminate Hx.
Qed.

(** The argmax along the last axis gives one class for each row of scores,
    and each class is below the number of scores of its row. *)
Theorem argmax_last_axis_in_range predictions classes :
  argmax_last_axis predictions = Some classes ->
  length classes = length predictions /\
  Forall2 (fun row c => (c < length row)%nat) predictions classes.
Proof.
  unfold argmax_last_axis. intros H. apply mapM_Some in H. split.
  - symmetry. exact (Forall2_length _ _ _ H).
  - eapply Forall2_impl; [exact H|].
    intros row c Hc. apply argmax_spec in Hc as (x & Hx & _).
    exact (lookup_lt_Some _ _ _ Hx).
Qed.



(** ** Properties of the loading *)

Lemma py_split_not_nil sep s : py_split sep s <> [].
Proof.
  destruct s as [|c s]; simpl; [discriminate|].
  destruct (Ascii.eqb c sep); [discriminate|].
  destruct (py_split sep s); discriminate.
Qed.

Lemma py_split_app sep s1 s2 :
  py_split sep (s1 +:+ String sep s2) = py_split sep s1 ++ py_split sep s2.
Proof.
  induction s1 as [|c s1 IH]; simpl.
  - now rewrite Ascii.eqb_refl.
  - rewrite IH. destruct (Ascii.eqb c sep); [reflexivity|].
    pose proof (py_split_not_nil sep s1) as Hne.
    destruct (py_split sep s1) as [|first others]; [now destruct Hne|reflexivity].
Qed.

Lemma records_of_app s1 s2 :
  records_of (s1 +:+ newline +:+ s2) = records_of s1 ++ records_of s2.
Proof.
  unfold records_of, newline.
  change (String (Ascii.ascii_of_nat 10) EmptyString +:+ s2)
    with (String (Ascii.ascii_of_nat 10) s2).
  now rewrite py_split_app, List.filter_app.
Qed.

Lemma comprehension_inr {A B} (f : A -> load_exn + B) l ys :
  comprehension f l = inr ys <-> Forall2 (fun x y => f x = inr y) l ys.
Proof.
  revert ys. induction l as [|x l IH]; intros ys; simpl.
  - split; [intros [= <-]; constructor|intros H; now inversion H].
  - destruct (f x) as [e|y] eqn:E.
    + split; [discriminate|]. intros H. inversion H; congruence.
    + destruct (comprehension f l) as [e|ys'] eqn:E'.
      * split; [discriminate|]. intros H. inversion H as [|? y' ? ys'' ? Hrest]; subst.
        apply IH in Hrest. discriminate Hrest.
      * split.
        -- intros [= <-]. constructor; [exact E|]. now apply IH.
        -- intros H. inversion H as [|? y' ? ys'' Hy Hrest]; subst.
           apply IH in Hrest. congruence.
Qed.

Lemma comprehension_first_error {A B} (f : A -> load_exn + B) l1 x l2 e :
  Forall (fun x => exists y, f x = inr y) l1 ->
  f x = inl e ->
  comprehension f (l1 ++ x :: l2) = inl e.
Proof.
  intros Hl1 Hx. induction Hl1 as [|x1 l1 [y Hy] _ IH]; simpl.
  - now rewrite Hx.
  - now rewrite Hy, IH.
Qed.

Lemma dataset_from_text_records {Dataset} json_loads
    (from_dict : list json -> list json -> load_exn + Dataset) text text' :
  records_of text = records_of text' ->
  Loader.dataset_from_text Dataset json_loads from_dict text
  = Loader.dataset_from_text Dataset json_loads from_dict text'.
Proof.
  unfold Loader.dataset_from_text, records_of. now intros ->.
Qed.

(** Empty lines make no record: a newline at the end or at the start of the
    text, or an empty line between two parts of it, changes nothing in what
    the loading gives, be it a dataset or an exception. *)
Theorem dataset_from_text_skips_empty_lines {Dataset} json_loads
    (from_dict : list json -> list json -> load_exn + Dataset) text text' :
  Loader.dataset_from_text Dataset json_loads from_dict (text +:+ newline)
  = Loader.dataset_from_text Dataset json_loads from_dict text /\
  Loader.dataset_from_text Dataset json_loads from_dict (newline +:+ text)
  = Loader.dataset_from_text Dataset json_loads from_dict text /\
  Loader.dataset_from_text Dataset json_loads from_dict
    (text +:+ newline +:+ newline +:+ text')
  = Loader.dataset_from_text Dataset json_loads from_dict
      (text +:+ newline +:+ text').
Proof.
  split; [|split]; apply dataset_from_text_records.
  - replace (text +:+ newline) with (text +:+ newline +:+ "")
      by reflexivity.
    rewrite records_of_app. apply app_nil_r.
  - change (newline +:+ text) with ("" +:+ newline +:+ text).
    rewrite records_of_app. reflexivity.
  - rewrite (records_of_app text (newline +:+ text')), (records_of_app text text').
    change (newline +:+ text') with ("" +:+ newline +:+ text').
    rewrite (records_of_app "" text'). reflexivity.
Qed.

(** When the loading gives a dataset, it is the one that [from_dict] makes
    of two columns with one entry for each line that is not empty, in the
    order of the lines: the entry of the first column is the [tweet] and
    that of the second the [label] of what [json.loads] made of the line. *)
Theorem dataset_from_text_columns {Dataset} json_loads
    (from_dict : list json -> list json -> load_exn + Dataset) text dataset :
  Loader.dataset_from_text Dataset json_loads from_dict text = inr dataset ->
  exists data docs labels,
    from_dict docs labels = inr dataset /\
    Forall2 (fun record value => json_loads record = inr value)
      (records_of text) data /\
    Forall2 (fun value doc => subscript "tweet" value = inr doc) data docs /\
    Forall2 (fun value label => subscript "label" value = inr label) data labels /\
    length docs = length (records_of text) /\
    length labels = length (records_of text).
Proof.
  unfold Loader.dataset_from_text. fold (records_of text).
  destruct (comprehension json_loads (records_of text)) as [e|data] eqn:Hdata;
    [discriminate|].
  destruct (comprehension (subscript "tweet") data) as [e|docs] eqn:Hdocs;
    [discriminate|].
  destruct (comprehension (subscript "label") data) as [e|labels] eqn:Hlabels;
    [discriminate|].
  intros Hd. apply comprehension_inr in Hdata, Hdocs, Hlabels.
  exists data, docs, labels. repeat split; try assumption.
  - rewrite <- (Forall2_length _ _ _ Hdocs). symmetry.
    exact (Forall2_length _ _ _ Hdata).
  - rewrite <- (Forall2_length _ _ _ Hlabels). symmetry.
    exact (Forall2_length _ _ _ Hdata).
Qed.

(** A line that [json.loads] rejects makes the loading raise its exception,
    whatever the lines after it hold and whatever keys the lines before it
    lack: every line is parsed before any key is looked up. *)
Theorem dataset_from_text_decode_error_first {Dataset} json_loads
    (from_dict : list json -> list json -> load_exn + Dataset)
    text before record after e :
  records_of text = before ++ record :: after ->
  Forall (fun r => exists value, json_loads r = inr value) before ->
  json_loads record = inl e ->
  Loader.dataset_from_text Dataset json_loads from_dict text = inl e.
Proof.
  intros Hrec Hbefore He. unfold Loader.dataset_from_text.
  fold (records_of text). rewrite Hrec.
  now rewrite (comprehension_first_error json_loads before record after e Hbefore He).
Qed.

(** When every line parses, the first record without a [tweet] decides the
    exception (a [MissingKey "tweet"] for a dict, a [TypeError] for another
    value), also when a record before it lacks its [label]. *)
Theorem dataset_from_text_tweet_before_label {Dataset} json_loads
    (from_dict : list json -> list json -> load_exn + Dataset)
    text data before value after e :
  Forall2 (fun record value => json_loads record = inr value)
    (records_of text) data ->
  data = before ++ value :: after ->
  Forall (fun v => exists doc, subscript "tweet" v = inr doc) before ->
  subscript "tweet" value = inl e ->
  Loader.dataset_from_text Dataset json_loads from_dict text = inl e /\
  (e = MissingKey "tweet" \/ e = TypeError).
Proof.
  intros Hdata -> Hbefore He. apply comprehension_inr in Hdata.
  unfold Loader.dataset_from_text. fold (records_of text). rewrite Hdata.
  rewrite (comprehension_first_error (subscript "tweet") before value after e
             Hbefore He).
  split; [reflexivity|].
  unfold subscript in He. destruct value; try (injection He as <-; now right).
  destruct (fields !! "tweet"); [discriminate|]. injection He as <-. now left.
Qed.

(** ** The further theorems on the sample objects *)

Lemma align_returns_aligned_pair_witness :
  snd (align Examples.zero_init Examples.small_model Examples.gpt_tokenizer false)
  = Returned tt /\
  (exists pad,
     Tokenizer.pad_token
       (aligned_tokenizer
          (align Examples.zero_init Examples.small_model Examples.gpt_tokenizer
             false))
     = Some pad).
Proof.
  split; [reflexivity|].
  apply (align_returns_aligned_pair Examples.zero_init Examples.small_model
           Examples.gpt_tokenizer false).
  reflexivity.
Defined.

Lemma align_only_sets_max_length_witness :
  Tokenizer.pad_token Examples.bert_tokenizer = Some "[PAD]" /\
  vocab_conflict Examples.gpt_model Examples.bert_tokenizer = false /\
  snd (align Examples.zero_init Examples.gpt_model Examples.bert_tokenizer true)
  = Returned tt /\
  aligned_model
    (align Examples.zero_init Examples.gpt_model Examples.bert_tokenizer true)
  = Examples.gpt_model /\
  aligned_tokenizer
    (align Examples.zero_init Examples.gpt_model Examples.bert_tokenizer true)
  = Tokenizer.set_model_max_length
      (effective_max_length Examples.gpt_model Examples.bert_tokenizer)
      Examples.bert_tokenizer.
Proof.
  split; [reflexivity|]. split; [reflexivity|].
  apply (align_only_sets_max_length Examples.zero_init Examples.gpt_model
           Examples.bert_tokenizer true "[PAD]"); reflexivity.
Defined.

Lemma align_no_conflict_no_resize_witness :
  vocab_conflict Examples.gpt_model Examples.gpt_tokenizer = false /\
  Model.input_embeddings
    (aligned_model
       (align Examples.zero_init Examples.gpt_model Examples.gpt_tokenizer false))
  = Model.input_embeddings Examples.gpt_model /\
  Config.vocab_size
    (Model.config
       (aligned_model
          (align Examples.zero_init Examples.gpt_model Examples.gpt_tokenizer
             false)))
  = Config.vocab_size (Model.config Examples.gpt_model).
Proof.
  split; [reflexivity|].
  apply (align_no_conflict_no_resize Examples.zero_init Examples.gpt_model
           Examples.gpt_tokenizer false).
  reflexivity.
Defined.

Lemma align_vocab_error_keeps_new_max_length_witness :
  Config.vocab_size (Model.config Examples.small_model) = Some 5 /\
  Tokenizer.vocab_size Examples.gpt_tokenizer = Some 8%N /\
  5 < Z.of_N 8 /\
  aligned_tokenizer
    (align Examples.zero_init Examples.small_model Examples.gpt_tokenizer true)
  = Tokenizer.set_model_max_length
      (effective_max_length Examples.small_model Examples.gpt_tokenizer)
      Examples.gpt_tokenizer.
Proof.
  split; [reflexivity|]. split; [reflexivity|]. split; [lia|].
  apply (align_vocab_error_keeps_new_max_length Examples.zero_init
           Examples.small_model Examples.gpt_tokenizer 5 8%N);
    [reflexivity|reflexivity|lia].
Defined.

Lemma align_config_pad_token_id_witness :
  Tokenizer.pad_token Examples.sep_tokenizer = None /\
  snd (align Examples.zero_init Examples.gpt_model Examples.sep_tokenizer true)
  = Returned tt /\
  Config.pad_token_id
    (Model.config
       (aligned_model
          (align Examples.zero_init Examples.gpt_model Examples.sep_tokenizer
             true)))
  = Tokenizer.pad_token_id
      (aligned_tokenizer
         (align Examples.zero_init Examples.gpt_model Examples.sep_tokenizer
            true)) /\
  Tokenizer.pad_token_id
    (aligned_tokenizer
       (align Examples.zero_init Examples.gpt_model Examples.sep_tokenizer true))
  <> None.
Proof.
  split; [reflexivity|]. split; [reflexivity|].
  apply (align_config_pad_token_id Examples.zero_init Examples.gpt_model
           Examples.sep_tokenizer true); reflexivity.
Defined.

Lemma align_keeps_config_pad_token_id_witness :
  Tokenizer.pad_token Examples.bert_tokenizer = Some "[PAD]" /\
  Tokenizer.pad_token_id Examples.bert_tokenizer = Some 0 /\
  Config.pad_token_id
    (Model.config
       (aligned_model
          (align Examples.zero_init Samples.odd_pad_model
             Examples.bert_tokenizer false)))
  = Some 5.
Proof.
  split; [reflexivity|]. split; [reflexivity|].
  apply (align_keeps_config_pad_token_id Examples.zero_init
           Samples.odd_pad_model Examples.bert_tokenizer false "[PAD]").
  reflexivity.
Defined.

Lemma align_again_witness :
  snd (align Examples.zero_init Examples.small_model Examples.gpt_tokenizer false)
  = Returned tt /\
  snd (align Examples.zero_init
         (aligned_model
            (align Examples.zero_init Examples.small_model
               Examples.gpt_tokenizer false))
         (aligned_tokenizer
            (align Examples.zero_init Examples.small_model
               Examples.gpt_tokenizer false))
         true)
  = Returned tt.
Proof.
  split; [reflexivity|].
  apply (align_again Examples.zero_init Examples.zero_init Examples.small_model
           Examples.gpt_tokenizer false true).
  reflexivity.
Defined.

(** The second alignment of the GPT-like pair does lower the length: the pad
    token taken from the EOS token now counts, with its id 7. *)
Example gpt_second_alignment :
  let r := align Examples.zero_init Examples.gpt_model Examples.gpt_tokenizer false in
  let r' := align Examples.zero_init (aligned_model r) (aligned_tokenizer r) false in
  Tokenizer.model_max_length (aligned_tokenizer r) = Some 1024 /\
  Tokenizer.model_max_length (aligned_tokenizer r') = Some 1016.
Proof. vm_compute. split; reflexivity. Qed.

Lemma walk_reaches_token_type_embeddings_witness :
  unique_names (Model.module Examples.small_model) = true /\
  exists attribute_list found,
    attribute_list_of
      (CDict
         [("bert",
           CDict
             [("embeddings",
               CDict
                 [("token_type_embeddings",
                   CModule (Examples.token_type_table Examples.one_row))])])])
    = Some attribute_list /\
    getattr_chain (Model.module Examples.small_model) attribute_list = inr found /\
    last attribute_list = Some token_type_embeddings_name /\
    named_children found = [].
Proof.
  split; [reflexivity|].
  apply (walk_reaches_token_type_embeddings (Model.module Examples.small_model));
    reflexivity.
Defined.


Lemma setup_idempotent_witness :
  unique_names (Model.module Examples.small_model) = true /\
  setup_model_for_question_answering Examples.zero_init
    (fst (setup_model_for_question_answering Examples.zero_init
            Examples.small_model))
  = (fst (setup_model_for_question_answering Examples.zero_init
            Examples.small_model),
     Returned tt).
Proof.
  split; [reflexivity|].
  apply (setup_idempotent Examples.zero_init Examples.zero_init
           Examples.small_model); reflexivity.
Defined.


Lemma setup_sets_type_vocab_size_witness :
  unique_names (Model.module Samples.three_rows_model) = true /\
  token_type_embeddings Samples.three_rows_model
  = Some (Examples.token_type_table Samples.three_rows) /\
  snd (setup_model_for_question_answering Examples.zero_init
         Samples.three_rows_model)
  = Returned tt /\
  Config.type_vocab_size
    (Model.config
       (fst (setup_model_for_question_answering Examples.zero_init
               Samples.three_rows_model)))
  = Some 2 /\
  (shape0 Samples.three_rows <> 1 ->
   Model.module
     (fst (setup_model_for_question_answering Examples.zero_init
             Samples.three_rows_model))
   = Model.module Samples.three_rows_model).
Proof.
  split; [reflexivity|]. split; [reflexivity|].
  apply (setup_sets_type_vocab_size Examples.zero_init Samples.three_rows_model
           (Examples.token_type_table Samples.three_rows) Samples.three_rows);
    reflexivity.
Defined.

Lemma argmax_last_axis_in_range_witness :
  argmax_last_axis Examples.stub_predictions = Some [0; 0; 0; 0]%nat /\
  length [0; 0; 0; 0]%nat = length Examples.stub_predictions /\
  Forall2 (fun (row : list float) c => (c < length row)%nat)
    Examples.stub_predictions [0; 0; 0; 0]%nat.
Proof.
  split; [reflexivity|].
  apply (argmax_last_axis_in_range Examples.stub_predictions [0; 0; 0; 0]%nat).
  reflexivity.
Defined.


Lemma dataset_from_text_columns_witness :
  Loader.dataset_from_text _ Samples.sample_loads Samples.sample_from_dict
    Samples.two_good_lines
  = inr ([JString "hej"; JString "hej"], [JString "positiv"; JString "positiv"]) /\
  exists data docs labels,
    Samples.sample_from_dict docs labels
    = inr ([JString "hej"; JString "hej"], [JString "positiv"; JString "positiv"]) /\
    Forall2 (fun record value => Samples.sample_loads record = inr value)
      (records_of Samples.two_good_lines) data /\
    Forall2 (fun value doc => subscript "tweet" value = inr doc) data docs /\
    Forall2 (fun value label => subscript "label" value = inr label) data labels /\
    length docs = length (records_of Samples.two_good_lines) /\
    length labels = length (records_of Samples.two_good_lines).
Proof.
  split; [reflexivity|].
  apply (dataset_from_text_columns Samples.sample_loads Samples.sample_from_dict
           Samples.two_good_lines).
  reflexivity.
Defined.

Lemma dataset_from_text_decode_error_first_witness :
  records_of Samples.bad_line_last = ["nolabel"] ++ "bad" :: ["good"] /\
  Loader.dataset_from_text _ Samples.sample_loads Samples.sample_from_dict
    Samples.bad_line_last
  = inl (JSONDecodeError "bad").
Proof.
  split; [reflexivity|].
  apply (dataset_from_text_decode_error_first Samples.sample_loads
           Samples.sample_from_dict Samples.bad_line_last
           ["nolabel"] "bad" ["good"]).
  - reflexivity.
  - constructor; [|constructor]. now eexists.
  - reflexivity.
Defined.

Lemma dataset_from_text_tweet_before_label_witness :
  Loader.dataset_from_text _ Samples.sample_loads Samples.sample_from_dict
    Samples.keys_missing
  = inl (MissingKey "tweet") /\
  (MissingKey "tweet" = MissingKey "tweet" \/ MissingKey "tweet" = TypeError).
Proof.
  apply (dataset_from_text_tweet_before_label Samples.sample_loads
           Samples.sample_from_dict Samples.keys_missing
           [Samples.tweet_only; Samples.label_only]
           [Samples.tweet_only] Samples.label_only []).
  - repeat constructor.
  - reflexivity.
  - constructor; [|constructor]. now eexists.
  - reflexivity.
Defined.

(** A line that holds a list, not a dict, ends the loading with a
    [TypeError]. *)
Example list_record_type_error :
  Loader.dataset_from_text _ Samples.sample_loads Samples.sample_from_dict
    ("good" +:+ newline +:+ "list")
  = inl TypeError.
Proof. reflexivity. Qed.

Example py_split_samples :
  let comma := Ascii.ascii_of_nat 44 in
  py_split comma "a,b" = ["a"; "b"] /\
  py_split comma "" = [""] /\
  py_split comma "a," = ["a"; ""] /\
  py_split comma ",,a" = [""; ""; "a"].
Proof. repeat split. Qed.
